(** * FINANCE-TECH: the expense dashboard component (frontend/src/App.js)

    A shallow embedding of the [App] component: its state slots, the four
    fetch functions and [loadAllData], the form handlers ([handleInputChange],
    [handleSubmit], [handleEdit], [handleDelete], [cancelForm]), the
    category colour lookup and the part of the render function that decides
    which controls exist.  The language runtime the component calls into
    ([parseFloat], [Number.prototype.toString], [Date.prototype.toISOString],
    [String.prototype.split], property lookup on an object literal, the
    [||] operator) is modelled in [Module JS].

    The service, the user and the clock are an environment that answers
    each interaction; the replies of the service have the types of the
    data model.  The four requests of [loadAllData] settle in an order the
    environment chooses.  A handler runs to completion before the next
    event is handled. *)

From Stdlib Require Import String Ascii List ZArith NArith Bool Lia Permutation.
Import ListNotations.
Open Scope string_scope.

(* ================================================================== *)
(** ** The JavaScript runtime, as far as the component uses it         *)
(* ================================================================== *)

Module JS.

(** Strings are sequences of bytes (the UTF-8 encoding of the source text);
    the component only tests them for emptiness, compares, concatenates and
    scans them for ASCII characters. *)

(** [ToBoolean] on a string: only the empty string is falsy. *)
Definition truthy (s : string) : bool :=
  match s with
  | EmptyString => false
  | String _ _ => true
  end.

(** *** Numbers

    A finite number is kept as the decimal [digits * 10 ^ exp10] it denotes,
    with its sign (so that [-0] exists).  Binary64 is not modelled: a
    literal keeps all its digits, and neither overflows to [Infinity] nor
    underflows to zero. *)
Inductive number : Type :=
| NaN
| Infinity (negative : bool)
| Finite (negative : bool) (digits : N) (exp10 : Z).

Definition is_digit (c : ascii) : bool :=
  (48 <=? nat_of_ascii c)%nat && (nat_of_ascii c <=? 57)%nat.

Definition digit_value (c : ascii) : N := N.of_nat (nat_of_ascii c - 48).

(** The longest run of decimal digits at the head of [s], and what follows. *)
Fixpoint span_digits (s : string) : string * string :=
  match s with
  | String c r =>
      if is_digit c
      then let (ds, rest) := span_digits r in (String c ds, rest)
      else (EmptyString, s)
  | EmptyString => (EmptyString, EmptyString)
  end.

(** The value of a string of decimal digits, most significant first. *)
Fixpoint digits_value_from (acc : N) (s : string) : N :=
  match s with
  | String c r => digits_value_from (10 * acc + digit_value c) r
  | EmptyString => acc
  end.

Definition digits_value (s : string) : N := digits_value_from 0 s.

(** [StrWhiteSpaceChar]: WhiteSpace and LineTerminator code points, here by
    their UTF-8 encodings of one, two and three bytes. *)
Definition white1 (a : ascii) : bool :=
  let n := nat_of_ascii a in
  ((9 <=? n) && (n <=? 13) || (n =? 32))%nat.

Definition white2 (a b : ascii) : bool :=
  ((nat_of_ascii a =? 194) && (nat_of_ascii b =? 160))%nat.      (* U+00A0 *)

Definition white3 (a b c : ascii) : bool :=
  let x := nat_of_ascii a in
  let y := nat_of_ascii b in
  let z := nat_of_ascii c in
  ((x =? 225) && (y =? 154) && (z =? 128)                         (* U+1680 *)
   || (x =? 226) && (y =? 128) && (128 <=? z) && (z <=? 138)      (* U+2000..U+200A *)
   || (x =? 226) && (y =? 128) && ((z =? 168) || (z =? 169))      (* U+2028, U+2029 *)
   || (x =? 226) && (y =? 128) && (z =? 175)                      (* U+202F *)
   || (x =? 226) && (y =? 129) && (z =? 159)                      (* U+205F *)
   || (x =? 227) && (y =? 128) && (z =? 128)                      (* U+3000 *)
   || (x =? 239) && (y =? 187) && (z =? 191))%nat.                (* U+FEFF *)

(** [TrimString(s, start)]. *)
Fixpoint trimStart (s : string) : string :=
  match s with
  | String a r1 =>
      if white1 a then trimStart r1
      else
        match r1 with
        | String b r2 =>
            if white2 a b then trimStart r2
            else
              match r2 with
              | String c r3 => if white3 a b c then trimStart r3 else s
              | EmptyString => s
              end
        | EmptyString => s
        end
  | EmptyString => s
  end.

(** [s] reversed, in front of [acc]. *)
Fixpoint rev_onto (s acc : string) : string :=
  match s with
  | String c r => rev_onto r (String c acc)
  | EmptyString => acc
  end.

Definition rev (s : string) : string := rev_onto s EmptyString.

(** Leading zeros of [s] dropped, with their number. *)
Fixpoint drop_zeros (s : string) : nat * string :=
  match s with
  | String c r =>
      if (nat_of_ascii c =? 48)%nat
      then let (k, r') := drop_zeros r in (S k, r')
      else (O, s)
  | EmptyString => (O, s)
  end.

(** The optional [ExponentPart] at the head of [s]: an indicator [e] or [E],
    an optional sign and at least one digit; [0] when there is none. *)
Definition exponent_part (s : string) : Z :=
  match s with
  | String e r =>
      if (nat_of_ascii e =? 101)%nat || (nat_of_ascii e =? 69)%nat then
        let (negative, r') :=
          match r with
          | String sg r0 =>
              if (nat_of_ascii sg =? 45)%nat then (true, r0)
              else if (nat_of_ascii sg =? 43)%nat then (false, r0)
              else (false, r)
          | EmptyString => (false, r)
          end in
        let (ds, _) := span_digits r' in
        match ds with
        | EmptyString => 0%Z
        | _ => if negative then (- Z.of_N (digits_value ds))%Z
               else Z.of_N (digits_value ds)
        end
      else 0%Z
  | EmptyString => 0%Z
  end.

(** The value of the longest prefix of [s] that is a
    [StrUnsignedDecimalLiteral], with the trailing zeros of its digits
    moved into the exponent. *)
Definition unsigned_literal (negative : bool) (s : string) : number :=
  if prefix "Infinity" s then Infinity negative
  else
    let (int, r1) := span_digits s in
    let (frac, r2) :=
      match r1 with
      | String dot r =>
          if (nat_of_ascii dot =? 46)%nat then span_digits r
          else (EmptyString, r1)
      | EmptyString => (EmptyString, r1)
      end in
    match int, frac with
    | EmptyString, EmptyString => NaN
    | _, _ =>
        let (z, r) := drop_zeros (rev (int ++ frac)) in
        let m := digits_value (rev r) in
        if (m =? 0)%N then Finite negative 0 0
        else Finite negative m
                    (exponent_part r2 - Z.of_nat (String.length frac)
                     + Z.of_nat z)
    end.

(** [parseFloat(string)]. *)
Definition parseFloat (s : string) : number :=
  match trimStart s with
  | String sg r =>
      if (nat_of_ascii sg =? 45)%nat then unsigned_literal true r
      else if (nat_of_ascii sg =? 43)%nat then unsigned_literal false r
      else unsigned_literal false (String sg r)
  | EmptyString => NaN
  end.

(** Decimal digits of a natural number, most significant first; [fuel]
    bounds the number of digits. *)
Fixpoint digits_of (fuel : nat) (n : N) (acc : string) : string :=
  match fuel with
  | O => acc
  | S fuel' =>
      let acc' := String (ascii_of_N (48 + n mod 10)) acc in
      if (n / 10 =? 0)%N then acc' else digits_of fuel' (n / 10) acc'
  end.

Definition decimal (n : N) : string :=
  digits_of (S (N.to_nat (N.log2 n))) n EmptyString.

Fixpoint zeros (n : nat) : string :=
  match n with
  | O => EmptyString
  | S n' => String "0" (zeros n')
  end.

(** [Number::toString(x, 10)]: with [s] the [k] significant digits of [x]
    and [x = s * 10 ^ (n - k)]. *)
Definition Number_toString (x : number) : string :=
  match x with
  | NaN => "NaN"
  | Infinity negative => if negative then "-Infinity" else "Infinity"
  | Finite negative m e =>
      if (m =? 0)%N then "0"
      else
        let (z, r) := drop_zeros (rev (decimal m)) in
        let s := rev r in
        let k := String.length s in
        let n := (e + Z.of_nat z + Z.of_nat k)%Z in
        let body :=
          if ((-5 <=? n) && (n <=? 21))%Z then
            if (Z.of_nat k <=? n)%Z then s ++ zeros (Z.to_nat n - k)
            else if (0 <? n)%Z then
              substring 0 (Z.to_nat n) s ++ "."
                ++ substring (Z.to_nat n) (k - Z.to_nat n) s
            else "0." ++ zeros (Z.to_nat (- n)) ++ s
          else
            let sign := if (n <? 0)%Z then "-" else "+" in
            let expo := decimal (Z.to_N (Z.abs (n - 1))) in
            if (k =? 1)%nat then s ++ "e" ++ sign ++ expo
            else substring 0 1 s ++ "." ++ substring 1 (k - 1) s
                   ++ "e" ++ sign ++ expo in
        if negative then "-" ++ body else body
  end.

(** *** Dates

    A [Date] is its time value: milliseconds since 1970-01-01T00:00:00Z. *)
Definition Date : Type := Z.

Definition msPerDay : Z := 86400000.

(** Year, month (1-12) and day of month of a day number counted from the
    epoch, in the proleptic Gregorian calendar. *)
Definition civil_from_days (days : Z) : Z * Z * Z :=
  let z := (days + 719468)%Z in
  let era := (z / 146097)%Z in
  let doe := (z - era * 146097)%Z in
  let yoe := ((doe - doe / 1460 + doe / 36524 - doe / 146096) / 365)%Z in
  let doy := (doe - (365 * yoe + yoe / 4 - yoe / 100))%Z in
  let mp := ((5 * doy + 2) / 153)%Z in
  let d := (doy - (153 * mp + 2) / 5 + 1)%Z in
  let m := (if mp <? 10 then mp + 3 else mp - 9)%Z in
  let y := (yoe + era * 400 + (if m <=? 2 then 1 else 0))%Z in
  (y, m, d).

(** [n] in decimal, padded with zeros on the left to [width] digits. *)
Definition pad (width : nat) (n : Z) : string :=
  let ds := decimal (Z.to_N n) in
  zeros (width - String.length ds) ++ ds.

(** The date part of the ISO format: [YYYY-MM-DD], or a signed six-digit
    year outside 0..9999. *)
Definition iso_date (t : Date) : string :=
  let '(y, m, d) := civil_from_days (t / msPerDay) in
  let year :=
    if ((0 <=? y) && (y <=? 9999))%Z then pad 4 y
    else if (y <? 0)%Z then "-" ++ pad 6 (- y)
    else "+" ++ pad 6 y in
  year ++ "-" ++ pad 2 m ++ "-" ++ pad 2 d.

Definition iso_time (t : Date) : string :=
  let ms := (t mod msPerDay)%Z in
  pad 2 (ms / 3600000) ++ ":" ++ pad 2 (ms / 60000 mod 60) ++ ":"
    ++ pad 2 (ms / 1000 mod 60) ++ "." ++ pad 3 (ms mod 1000).

(** [Date.prototype.toISOString]. *)
Definition toISOString (t : Date) : string :=
  iso_date t ++ "T" ++ iso_time t ++ "Z".

(** [s.split(sep)[0]] for a one-character separator: the part of [s] before
    the first [sep], all of [s] when there is none. *)
Fixpoint split_0 (sep : ascii) (s : string) : string :=
  match s with
  | String c r => if Ascii.eqb c sep then EmptyString else String c (split_0 sep r)
  | EmptyString => EmptyString
  end.

(** *** Property lookup on an object literal

    An object literal has its own properties and inherits from
    [Object.prototype]; [o[key]] yields the own property, else the inherited
    member, else [undefined]. *)
Inductive value : Type :=
| undefined
| str (s : string)
| inherited (name : string).   (* the member [name] of Object.prototype *)

Definition Object_prototype : list string :=
  [ "constructor"; "hasOwnProperty"; "isPrototypeOf"; "propertyIsEnumerable";
    "toLocaleString"; "toString"; "valueOf"; "__proto__";
    "__defineGetter__"; "__defineSetter__"; "__lookupGetter__";
    "__lookupSetter__" ].

(** The own property [key] of a literal whose keys are distinct. *)
Fixpoint own (props : list (string * string)) (key : string) : option string :=
  match props with
  | (k, v) :: rest => if String.eqb k key then Some v else own rest key
  | [] => None
  end.

Definition get (props : list (string * string)) (key : string) : value :=
  match own props key with
  | Some v => str v
  | None =>
      if existsb (String.eqb key) Object_prototype then inherited key
      else undefined
  end.

Definition ToBoolean (v : value) : bool :=
  match v with
  | undefined => false
  | str s => truthy s
  | inherited _ => true
  end.

(** [a || b]. *)
Definition or (a b : value) : value := if ToBoolean a then a else b.

End JS.

(* ================================================================== *)
(** ** Data model                                                      *)
(* ================================================================== *)

(** An expense record as the service returns it. *)
Module Expense.
Record t : Type := mk {
  id : string;
  description : string;
  amount : JS.number;
  category : string;
  date : string
}.

Definition number_eqb (x y : JS.number) : bool :=
  match x, y with
  | JS.NaN, JS.NaN => true
  | JS.Infinity a, JS.Infinity b => Bool.eqb a b
  | JS.Finite a m e, JS.Finite b n f =>
      Bool.eqb a b && (m =? n)%N && (e =? f)%Z
  | _, _ => false
  end.

(** Same record, field by field (the rows of the table are told apart by
    their content). *)
Definition eqb (x y : t) : bool :=
  String.eqb (id x) (id y) && String.eqb (description x) (description y)
  && number_eqb (amount x) (amount y)
  && String.eqb (category x) (category y) && String.eqb (date x) (date y).
End Expense.

(** The body of [GET /api/dashboard/stats]. *)
Module Stats.
Record t : Type := mk {
  total_expenses : JS.number;
  total_count : JS.number;
  average_expense : JS.number;
  monthly_total : JS.number
}.
End Stats.

(** One entry of [GET /api/dashboard/categories]. *)
Module Summary.
Record t : Type := mk {
  category : string;
  total : JS.number;
  count : JS.number;
  percentage : JS.number
}.
End Summary.

(** The [formData] object: the four inputs of the form, all text. *)
Module Form.
Record t : Type := mk {
  description : string;
  amount : string;
  category : string;
  date : string
}.

(** The [name] attribute of the four inputs. *)
Inductive field : Type := Description | Amount | Category | Date.

(** [{...prev, [name]: value}]. *)
Definition update (prev : t) (name : field) (value : string) : t :=
  match name with
  | Description => mk value (amount prev) (category prev) (date prev)
  | Amount => mk (description prev) value (category prev) (date prev)
  | Category => mk (description prev) (amount prev) value (date prev)
  | Date => mk (description prev) (amount prev) (category prev) value
  end.
End Form.

(** The [expenseData] object sent with POST and PUT:
  [{...formData, amount: parseFloat(formData.amount)}]. *)
Module Payload.
Record t : Type := mk {
  description : string;
  amount : JS.number;
  category : string;
  date : string
}.
End Payload.

(** The [useState] slots of [App]. *)
Record AppState : Type := mkState {
  expenses : list Expense.t;
  categories : list string;
  dashboardStats : option Stats.t;
  categorySummaries : list Summary.t;
  loading : bool;
  error : string;
  showForm : bool;
  editingExpense : option Expense.t;
  formData : Form.t
}.

Definition setExpenses (v : list Expense.t) (s : AppState) : AppState :=
  mkState v (categories s) (dashboardStats s) (categorySummaries s) (loading s)
          (error s) (showForm s) (editingExpense s) (formData s).

Definition setCategories (v : list string) (s : AppState) : AppState :=
  mkState (expenses s) v (dashboardStats s) (categorySummaries s) (loading s)
          (error s) (showForm s) (editingExpense s) (formData s).

Definition setDashboardStats (v : option Stats.t) (s : AppState) : AppState :=
  mkState (expenses s) (categories s) v (categorySummaries s) (loading s)
          (error s) (showForm s) (editingExpense s) (formData s).

Definition setCategorySummaries (v : list Summary.t) (s : AppState) : AppState :=
  mkState (expenses s) (categories s) (dashboardStats s) v (loading s)
          (error s) (showForm s) (editingExpense s) (formData s).

Definition setLoading (v : bool) (s : AppState) : AppState :=
  mkState (expenses s) (categories s) (dashboardStats s) (categorySummaries s) v
          (error s) (showForm s) (editingExpense s) (formData s).

Definition setError (v : string) (s : AppState) : AppState :=
  mkState (expenses s) (categories s) (dashboardStats s) (categorySummaries s)
          (loading s) v (showForm s) (editingExpense s) (formData s).

Definition setShowForm (v : bool) (s : AppState) : AppState :=
  mkState (expenses s) (categories s) (dashboardStats s) (categorySummaries s)
          (loading s) (error s) v (editingExpense s) (formData s).

Definition setEditingExpense (v : option Expense.t) (s : AppState) : AppState :=
  mkState (expenses s) (categories s) (dashboardStats s) (categorySummaries s)
          (loading s) (error s) (showForm s) v (formData s).

Definition setFormData (v : Form.t) (s : AppState) : AppState :=
  mkState (expenses s) (categories s) (dashboardStats s) (categorySummaries s)
          (loading s) (error s) (showForm s) (editingExpense s) v.

(* ================================================================== *)
(** ** The environment: service, user and clock                        *)
(* ================================================================== *)

Inductive Method : Type := GET | POST | PUT | DELETE.

Record Request : Type := mkRequest {
  method : Method;
  url : string;
  body : option Payload.t
}.

(** What the component cannot decide.  Every interaction with the outside
    takes a ticket (the number of interactions before it), and the
    environment answers per ticket: the reply to the request sent with that
    ticket ([None] or [false]: the promise rejects), the answer to the
    confirmation prompt, the reading of the clock, and the order in which
    promises awaited together settle. *)
Record Env : Type := mkEnv {
  REACT_APP_BACKEND_URL : option string;
  reply_expenses : nat -> option (list Expense.t);
  reply_categories : nat -> option (list string);
  reply_stats : nat -> option Stats.t;
  reply_summaries : nat -> option (list Summary.t);
  reply_mutation : nat -> bool;
  window_confirm : nat -> bool;
  clock : nat -> JS.Date;
  arrival : nat -> list nat
}.

(** The component's state together with what the outside has seen of it. *)
Record World : Type := mkWorld {
  app : AppState;
  requests : list Request;     (* sent so far, oldest first *)
  prompts : list string;       (* confirmation prompts shown *)
  console : list string;       (* console.error lines *)
  tick : nat                   (* the next ticket *)
}.

(** A rejected promise, with the request it belonged to. *)
Inductive Exn : Type := Rejected (ticket : nat).

Inductive Result (A : Type) : Type :=
| Returned (a : A)
| Thrown (e : Exn).
Arguments Returned {A} a.
Arguments Thrown {A} e.

(** Computations over the world that may throw. *)
Definition M (A : Type) : Type := World -> Result A * World.

Definition ret {A} (a : A) : M A := fun w => (Returned a, w).

Definition bind {A B} (m : M A) (k : A -> M B) : M B :=
  fun w => match m w with
           | (Returned a, w') => k a w'
           | (Thrown e, w') => (Thrown e, w')
           end.

Definition throw {A} (e : Exn) : M A := fun w => (Thrown e, w).

Definition try_catch {A} (m : M A) (handler : Exn -> M A) : M A :=
  fun w => match m w with
           | (Returned a, w') => (Returned a, w')
           | (Thrown e, w') => handler e w'
           end.

Declare Scope js_scope.
Delimit Scope js_scope with js.
Notation "x <- m ;; k" := (bind m (fun x => k))
  (at level 61, m at next level, right associativity) : js_scope.
Notation "m ;; k" := (bind m (fun _ => k))
  (at level 61, right associativity) : js_scope.
Notation "'try' m 'catch' h" := (try_catch m h)
  (at level 62, m at level 61, h at level 61) : js_scope.
Open Scope js_scope.

(** A state setter call. *)
Definition set (f : AppState -> AppState) : M unit :=
  fun w => (Returned tt,
            mkWorld (f (app w)) (requests w) (prompts w) (console w) (tick w)).

(** The state captured by the closures of the current render. *)
Definition rendered : M AppState := fun w => (Returned (app w), w).

Definition console_error (line : string) : M unit :=
  fun w => (Returned tt,
            mkWorld (app w) (requests w) (prompts w) (console w ++ [line]) (tick w)).

(** Takes the next ticket. *)
Definition ticket : M nat :=
  fun w => (Returned (tick w),
            mkWorld (app w) (requests w) (prompts w) (console w) (S (tick w))).

(** Puts a request on the wire; the ticket identifies its reply. *)
Definition send (r : Request) : M nat :=
  t <- ticket ;;
  fun w => (Returned t,
            mkWorld (app w) (requests w ++ [r]) (prompts w) (console w) (tick w)).

(** [await] on a promise whose outcome is known. *)
Definition await {A} (t : nat) (outcome : option A) : M A :=
  match outcome with
  | Some a => ret a
  | None => throw (Rejected t)
  end.

(** A template literal [`${v}`] of a value that may be [undefined]. *)
Definition tpl (v : option string) : string :=
  match v with
  | Some s => s
  | None => "undefined"
  end.

(** An async function with a single [await]: the request it sends when
    called, and the rest of its body, run when that request settles. *)
Record Async : Type := mkAsync {
  sends : Request;
  resumes : nat -> M unit
}.

(** The arrival order of [n] pending promises: each pick names one of those
    still pending (modulo their number; a missing pick is [0]). *)
Fixpoint remove_nth {A} (i : nat) (l : list A) : list A :=
  match i, l with
  | _, [] => []
  | O, _ :: r => r
  | S i', x :: r => x :: remove_nth i' r
  end.

Fixpoint drain (fuel : nat) (picks : list nat) (pending : list nat) : list nat :=
  match fuel with
  | O => []
  | S fuel' =>
      let i := hd O picks mod length pending in
      nth i pending O :: drain fuel' (tl picks) (remove_nth i pending)
  end.

Definition schedule (picks : list nat) (n : nat) : list nat :=
  drain n picks (seq 0 n).

(** Runs the continuations of the promises in [order]; the first rejection,
    if any, is the result. *)
Fixpoint settle (fs : list (nat * Async)) (order : list nat) : M unit :=
  match order with
  | [] => ret tt
  | i :: rest =>
      match nth_error fs i with
      | Some (t, f) =>
          fun w => match resumes f t w with
                   | (Returned _, w') => settle fs rest w'
                   | (Thrown e, w') => (Thrown e, snd (settle fs rest w'))
                   end
      | None => settle fs rest
      end
  end.

Fixpoint send_all (fs : list Async) : M (list (nat * Async)) :=
  match fs with
  | [] => ret []
  | f :: rest =>
      t <- send (sends f) ;;
      sent <- send_all rest ;;
      ret ((t, f) :: sent)
  end.

Section Component.

Variable env : Env.

(** [process.env.REACT_APP_BACKEND_URL]. *)
Definition API_URL : option string := REACT_APP_BACKEND_URL env.

(** [await Promise.all(fs.map(f => f()))]: every function is called in
    turn, which sends its request; the continuations then run one at a
    time in the order the environment lets the requests settle.  The
    caller resumes once all have settled. *)
Definition Promise_all (fs : list Async) : M unit :=
  sent <- send_all fs ;;
  t <- ticket ;;
  settle sent (schedule (arrival env t) (length fs)).

Definition axios_post (u : string) (data : Payload.t) : M unit :=
  t <- send (mkRequest POST u (Some data)) ;;
  await t (if reply_mutation env t then Some tt else None).

Definition axios_put (u : string) (data : Payload.t) : M unit :=
  t <- send (mkRequest PUT u (Some data)) ;;
  await t (if reply_mutation env t then Some tt else None).

Definition axios_delete (u : string) : M unit :=
  t <- send (mkRequest DELETE u None) ;;
  await t (if reply_mutation env t then Some tt else None).

(** [window.confirm(message)]. *)
Definition confirm (message : string) : M bool :=
  t <- ticket ;;
  fun w => (Returned (window_confirm env t),
            mkWorld (app w) (requests w) (prompts w ++ [message]) (console w) (tick w)).

(** [new Date()]. *)
Definition new_Date : M JS.Date :=
  t <- ticket ;;
  ret (clock env t).

(** *** Fetch functions (App.js, 54-92) *)

Definition fetchExpenses : Async :=
  {| sends := mkRequest GET (tpl API_URL ++ "/api/expenses?limit=10") None;
     resumes := fun t =>
       try
         response <- await t (reply_expenses env t) ;;
         set (setExpenses response)
       catch (fun err =>
         set (setError "Erro ao carregar despesas") ;;
         console_error "Error fetching expenses:") |}.

Definition fetchCategories : Async :=
  {| sends := mkRequest GET (tpl API_URL ++ "/api/categories") None;
     resumes := fun t =>
       try
         response <- await t (reply_categories env t) ;;
         set (setCategories response)
       catch (fun err =>
         set (setError "Erro ao carregar categorias") ;;
         console_error "Error fetching categories:") |}.

Definition fetchDashboardStats : Async :=
  {| sends := mkRequest GET (tpl API_URL ++ "/api/dashboard/stats") None;
     resumes := fun t =>
       try
         response <- await t (reply_stats env t) ;;
         set (setDashboardStats (Some response))
       catch (fun err =>
         set (setError "Erro ao carregar estatísticas") ;;
         console_error "Error fetching dashboard stats:") |}.

Definition fetchCategorySummaries : Async :=
  {| sends := mkRequest GET (tpl API_URL ++ "/api/dashboard/categories") None;
     resumes := fun t =>
       try
         response <- await t (reply_summaries env t) ;;
         set (setCategorySummaries response)
       catch (fun err =>
         set (setError "Erro ao carregar resumo por categoria") ;;
         console_error "Error fetching category summaries:") |}.

(** App.js, 94-103. *)
Definition loadAllData : M unit :=
  set (setLoading true) ;;
  Promise_all [ fetchExpenses; fetchCategories;
                fetchDashboardStats; fetchCategorySummaries ] ;;
  set (setLoading false).

(** [new Date().toISOString().split('T')[0]]. *)
Definition today : M string :=
  d <- new_Date ;;
  ret (JS.split_0 "T" (JS.toISOString d)).

(** *** Form handlers (App.js, 110-189) *)

Definition handleInputChange (name : Form.field) (value : string) : M unit :=
  set (fun prev => setFormData (Form.update (formData prev) name value) prev).

(** [formData] and [editingExpense] are those of the render whose closure
    the handler is; [e.preventDefault()] does not touch the state. *)
Definition handleSubmit : M unit :=
  s <- rendered ;;
  let formData := formData s in
  let editingExpense := editingExpense s in
  if negb (JS.truthy (Form.description formData))
     || negb (JS.truthy (Form.amount formData))
     || negb (JS.truthy (Form.category formData))
  then
    set (setError "Todos os campos são obrigatórios")
  else
    try
      let expenseData :=
        Payload.mk (Form.description formData)
                   (JS.parseFloat (Form.amount formData))
                   (Form.category formData) (Form.date formData) in
      match editingExpense with
      | Some editing =>
          axios_put (tpl API_URL ++ "/api/expenses/" ++ Expense.id editing)
                    expenseData
      | None =>
          axios_post (tpl API_URL ++ "/api/expenses") expenseData
      end ;;
      date <- today ;;
      set (setFormData (Form.mk "" "" "" date)) ;;
      set (setShowForm false) ;;
      set (setEditingExpense None) ;;
      set (setError "") ;;
      loadAllData
    catch (fun err =>
      set (setError (match editingExpense with
                     | Some _ => "Erro ao atualizar despesa"
                     | None => "Erro ao criar despesa"
                     end)) ;;
      console_error "Error saving expense:").

Definition handleEdit (expense : Expense.t) : M unit :=
  set (setEditingExpense (Some expense)) ;;
  set (setFormData
         (Form.mk (Expense.description expense)
                  (JS.Number_toString (Expense.amount expense))
                  (Expense.category expense)
                  (Expense.date expense))) ;;
  set (setShowForm true).

Definition handleDelete (expenseId : string) : M unit :=
  confirmed <- confirm "Tem certeza que deseja excluir esta despesa?" ;;
  if negb confirmed then ret tt
  else
    try
      axios_delete (tpl API_URL ++ "/api/expenses/" ++ expenseId) ;;
      loadAllData
    catch (fun err =>
      set (setError "Erro ao excluir despesa") ;;
      console_error "Error deleting expense:").

Definition cancelForm : M unit :=
  set (setShowForm false) ;;
  set (setEditingExpense None) ;;
  date <- today ;;
  set (setFormData (Form.mk "" "" "" date)) ;;
  set (setError "").

(** *** Events

    What the page lets the user do: the header button, the two buttons of
    each row of the table, and the inputs and buttons of the form.  A
    change carries any text as the new value of its input. *)
Inductive Event : Type :=
| NewExpense                                        (* onClick, line 266 *)
| Edit (expense : Expense.t)                        (* onClick, line 428 *)
| Delete (expense : Expense.t)                      (* onClick, line 437 *)
| Change (name : Form.field) (value : string)       (* onChange of an input *)
| Submit                                            (* onSubmit of the form *)
| Cancel.                                           (* onClick, line 609 *)

Definition handler (ev : Event) : M unit :=
  match ev with
  | NewExpense => set (setShowForm true)
  | Edit expense => handleEdit expense
  | Delete expense => handleDelete (Expense.id expense)
  | Change name value => handleInputChange name value
  | Submit => handleSubmit
  | Cancel => cancelForm
  end.

(** The world after the handler of [ev] has run to completion (no other
    event is handled while it awaits). *)
Definition dispatch (ev : Event) (w : World) : World := snd (handler ev w).

(** The world in which the component is mounted: the initial values of the
    [useState] slots. *)
Definition mount : World :=
  mkWorld
    (mkState [] [] None [] true "" false None
             (Form.mk "" "" "" (JS.split_0 "T" (JS.toISOString (clock env 0)))))
    [] [] [] 1.

(** The effect of line 105 has run: the first [loadAllData]. *)
Definition boot : World := snd (loadAllData mount).

End Component.

(* ================================================================== *)
(** ** The render function                                             *)
(* ================================================================== *)

(** App.js, 15-25. *)
Definition CATEGORY_COLORS : list (string * string) :=
  [ ("Alimentação", "#ef4444");
    ("Transporte", "#f97316");
    ("Lazer", "#eab308");
    ("Saúde", "#22c55e");
    ("Educação", "#3b82f6");
    ("Casa", "#8b5cf6");
    ("Roupas", "#ec4899");
    ("Tecnologia", "#06b6d4");
    ("Outros", "#64748b") ].

(** [doughnutData.datasets[0].backgroundColor] (line 196). *)
Definition doughnut_backgroundColor (categorySummaries : list Summary.t)
  : list JS.value :=
  map (fun cat => JS.or (JS.get CATEGORY_COLORS (Summary.category cat))
                        (JS.str "#64748b"))
      categorySummaries.

(** The dot of a row of the summary list (line 372). *)
Definition summary_backgroundColor (cat : Summary.t) : JS.value :=
  JS.or (JS.get CATEGORY_COLORS (Summary.category cat)) (JS.str "#64748b").

(** The badge of a row of the expense table (line 412). *)
Definition expense_backgroundColor (expense : Expense.t) : JS.value :=
  JS.or (JS.get CATEGORY_COLORS (Expense.category expense)) (JS.str "#64748b").

(** The modal of lines 524-618, as rendered. *)
Record Modal : Type := mkModal {
  title : string;
  inputs : Form.t;
  submit_label : string
}.

(** The modals in the rendered page: none while the spinner is shown
    (line 235), and [showForm && (...)] otherwise. *)
Definition modals (s : AppState) : list Modal :=
  if loading s then []
  else if showForm s then
    [ mkModal (match editingExpense s with
               | Some _ => "Editar Despesa" | None => "Nova Despesa" end)
              (formData s)
              (match editingExpense s with
               | Some _ => "Atualizar Despesa" | None => "Criar Despesa" end) ]
  else [].

(** Whether the rendered page has the control that fires [ev]: nothing
    but the spinner while loading (line 235); otherwise the header button,
    the two buttons of every row of [expenses], and, inside
    [showForm && (...)], the form.  The table stays in the page while the
    modal is shown. *)
Definition offered (s : AppState) (ev : Event) : bool :=
  if loading s then false
  else
    match ev with
    | NewExpense => true
    | Edit expense | Delete expense => existsb (Expense.eqb expense) (expenses s)
    | Change _ _ | Submit | Cancel => showForm s
    end.

(** The worlds the component can be in: mounted and loaded, then any
    sequence of events the page offers. *)
Inductive Reachable (env : Env) : World -> Prop :=
| Reachable_boot : Reachable env (boot env)
| Reachable_step (w : World) (ev : Event) :
    Reachable env w -> offered (app w) ev = true ->
    Reachable env (dispatch env ev w).

(** The events of [evs] handled one after the other. *)
Definition run (env : Env) (evs : list Event) (w : World) : World :=
  fold_left (fun w ev => dispatch env ev w) evs w.

(* ================================================================== *)
(** ** Vocabulary of the statements                                    *)
(* ================================================================== *)

(** *** Loading *)

(** The four promises of [loadAllData], in the order they are created. *)
Definition fetches (env : Env) : list Async :=
  [ fetchExpenses env; fetchCategories env;
    fetchDashboardStats env; fetchCategorySummaries env ].

(** The four GET requests of [loadAllData]. *)
Definition load_requests (env : Env) : list Request :=
  [ mkRequest GET (tpl (API_URL env) ++ "/api/expenses?limit=10") None;
    mkRequest GET (tpl (API_URL env) ++ "/api/categories") None;
    mkRequest GET (tpl (API_URL env) ++ "/api/dashboard/stats") None;
    mkRequest GET (tpl (API_URL env) ++ "/api/dashboard/categories") None ].

(** The tickets taken by the four calls of a [loadAllData] started at
    ticket [t]. *)
Definition tickets (env : Env) (t : nat) : list (nat * Async) :=
  [ (t, fetchExpenses env); (1 + t, fetchCategories env);
    (2 + t, fetchDashboardStats env); (3 + t, fetchCategorySummaries env) ].

(** Whether the [i]-th request of a [loadAllData] started at ticket [t]
    is rejected. *)
Definition rejected (env : Env) (t i : nat) : bool :=
  match i with
  | 0 => match reply_expenses env t with Some _ => false | None => true end
  | 1 => match reply_categories env (1 + t) with Some _ => false | None => true end
  | 2 => match reply_stats env (2 + t) with Some _ => false | None => true end
  | 3 => match reply_summaries env (3 + t) with Some _ => false | None => true end
  | _ => false
  end.

(** The message each fetch function shows when its request is rejected. *)
Definition load_message (i : nat) : string :=
  match i with
  | 0 => "Erro ao carregar despesas"
  | 1 => "Erro ao carregar categorias"
  | 2 => "Erro ao carregar estatísticas"
  | _ => "Erro ao carregar resumo por categoria"
  end.

(** The message that stands for a request, [d] for none. *)
Definition message_of (i : option nat) (d : string) : string :=
  match i with
  | Some i => load_message i
  | None => d
  end.

(** The order in which the four requests of a [loadAllData] started at
    ticket [t] settle. *)
Definition load_order (env : Env) (t : nat) : list nat :=
  schedule (arrival env (4 + t)) 4.

(** The rejected request that settles last, [acc] when there is none. *)
Definition last_rejected (env : Env) (t : nat) (order : list nat)
  (acc : option nat) : option nat :=
  fold_left (fun acc i => if rejected env t i then Some i else acc) order acc.

(** The world after the [i]-th promise of a [loadAllData] started at
    ticket [t] has settled. *)
Definition settled (env : Env) (t i : nat) (w : World) : World :=
  match nth_error (fetches env) i with
  | Some f => snd (resumes f (i + t) w)
  | None => w
  end.

Definition settled_in (env : Env) (t : nat) (order : list nat) (w : World) : World :=
  fold_left (fun w i => settled env t i w) order w.

(** *** The form *)

(** Client-side validation passes: the three required fields are truthy. *)
Definition valid (f : Form.t) : bool :=
  JS.truthy (Form.description f) && JS.truthy (Form.amount f)
  && JS.truthy (Form.category f).

(** The request [handleSubmit] sends for a valid form: POST, or PUT to
    the id of the record being edited. *)
Definition submit_request (env : Env) (s : AppState) : Request :=
  let data := Payload.mk (Form.description (formData s))
                         (JS.parseFloat (Form.amount (formData s)))
                         (Form.category (formData s))
                         (Form.date (formData s)) in
  match editingExpense s with
  | Some editing =>
      mkRequest PUT (tpl (API_URL env) ++ "/api/expenses/" ++ Expense.id editing)
                (Some data)
  | None => mkRequest POST (tpl (API_URL env) ++ "/api/expenses") (Some data)
  end.

(** [handleSubmit] from the moment its request, sent with ticket [t],
    settles: the [try] block after the [await] of line 132 or 134, and
    the [catch] block.  [editingExpense] is the one the handler closed
    over. *)
Definition submit_settled (env : Env) (editingExpense : option Expense.t)
  (t : nat) : M unit :=
  try
    await t (if reply_mutation env t then Some tt else None) ;;
    date <- today env ;;
    set (setFormData (Form.mk "" "" "" date)) ;;
    set (setShowForm false) ;;
    set (setEditingExpense None) ;;
    set (setError "") ;;
    loadAllData env
  catch (fun err =>
    set (setError (match editingExpense with
                   | Some _ => "Erro ao atualizar despesa"
                   | None => "Erro ao criar despesa"
                   end)) ;;
    console_error "Error saving expense:").

(** [handleDelete] from the moment its request settles. *)
Definition delete_settled (env : Env) (t : nat) : M unit :=
  try
    await t (if reply_mutation env t then Some tt else None) ;;
    loadAllData env
  catch (fun err =>
    set (setError "Erro ao excluir despesa") ;;
    console_error "Error deleting expense:").

(** A submit succeeds when validation passes and the request is accepted. *)
Definition submit_succeeds (env : Env) (w : World) : bool :=
  valid (formData (app w)) && reply_mutation env (tick w).

(** The message of a failed submit: it depends on whether an edit is in
    progress. *)
Definition submit_message (s : AppState) : string :=
  match editingExpense s with
  | Some _ => "Erro ao atualizar despesa"
  | None => "Erro ao criar despesa"
  end.

(** No character of [s] is [sep]. *)
Fixpoint free_of (sep : ascii) (s : string) : bool :=
  match s with
  | String c r => negb (Ascii.eqb c sep) && free_of sep r
  | EmptyString => true
  end.

(** The form defaults: empty fields and the calendar date (UTC) of the
    clock reading. *)
Definition defaults (d : JS.Date) : Form.t := Form.mk "" "" "" (JS.iso_date d).

(** The state a successful submit leaves before it reloads. *)
Definition after_submit (d : JS.Date) (s : AppState) : AppState :=
  setError "" (setEditingExpense None (setShowForm false
    (setFormData (defaults d) s))).

(** The form as [handleEdit] fills it. *)
Definition prefilled (expense : Expense.t) : Form.t :=
  Form.mk (Expense.description expense)
          (JS.Number_toString (Expense.amount expense))
          (Expense.category expense) (Expense.date expense).

(** The DELETE request of [handleDelete] and its prompt. *)
Definition delete_request (env : Env) (expenseId : string) : Request :=
  mkRequest DELETE (tpl (API_URL env) ++ "/api/expenses/" ++ expenseId) None.

Definition delete_prompt : string := "Tem certeza que deseja excluir esta despesa?".

(** The number of requests of method [m] among [rs]. *)
Definition count_method (m : Method) (rs : list Request) : nat :=
  length (filter (fun r => match method r, m with
                           | GET, GET | POST, POST | PUT, PUT | DELETE, DELETE => true
                           | _, _ => false
                           end) rs).

(** *** The modal *)

(** The state of the modal: closed, open to create, open to edit a record. *)
Inductive ModalState : Type :=
| Closed
| OpenCreate
| OpenEdit (expense : Expense.t).

Definition modal_state (s : AppState) : ModalState :=
  if showForm s then
    match editingExpense s with
    | Some expense => OpenEdit expense
    | None => OpenCreate
    end
  else Closed.

(** The machine as listed: closed to open on the new-expense and edit
    actions, open to closed on cancel and on a successful submit, and no
    other transition. *)
Definition listed_next (m : ModalState) (ev : Event) (succeeded : bool)
  : ModalState :=
  match m, ev with
  | Closed, NewExpense => OpenCreate
  | Closed, Edit expense => OpenEdit expense
  | (OpenCreate | OpenEdit _), Cancel => Closed
  | (OpenCreate | OpenEdit _), Submit => if succeeded then Closed else m
  | _, _ => m
  end.

Definition modal_machine_as_listed : Prop :=
  forall (env : Env) (w : World) (ev : Event),
    Reachable env w -> offered (app w) ev = true ->
    let w' := dispatch env ev w in
    modal_state (app w') =
      listed_next (modal_state (app w)) ev (submit_succeeds env w) /\
    (forall expense, ev = Edit expense -> formData (app w') = prefilled expense) /\
    length (modals (app w')) <= 1.

(** The machine of the handlers: as listed, and the edit action also
    acts on an open form, which it turns to the record. *)
Definition modal_next (m : ModalState) (ev : Event) (succeeded : bool)
  : ModalState :=
  match m, ev with
  | Closed, NewExpense => OpenCreate
  | _, Edit expense => OpenEdit expense
  | (OpenCreate | OpenEdit _), Cancel => Closed
  | (OpenCreate | OpenEdit _), Submit => if succeeded then Closed else m
  | _, _ => m
  end.

(** *** Category colours *)

(** The expression written at the three places that render a category
    colour: [CATEGORY_COLORS[label] || '#64748b']. *)
Definition category_color (label : string) : JS.value :=
  JS.or (JS.get CATEGORY_COLORS label) (JS.str "#64748b").

(* ================================================================== *)
(** ** Scenarios                                                       *)
(* ================================================================== *)

(** A lunch of 25.50 on 2025-01-15. *)
Definition lunch : Expense.t :=
  Expense.mk "1" "Lunch" (JS.Finite false 255 (-1)) "Alimentação" "2025-01-15".

Definition lunch_stats : Stats.t :=
  Stats.mk (JS.Finite false 255 (-1)) (JS.Finite false 1 0)
           (JS.Finite false 255 (-1)) (JS.Finite false 255 (-1)).

Definition lunch_summary : Summary.t :=
  Summary.mk "Alimentação" (JS.Finite false 255 (-1)) (JS.Finite false 1 0)
             (JS.Finite false 100 0).

(** A record and a summary whose category is named like a member of
    [Object.prototype]. *)
Definition odd_expense : Expense.t :=
  Expense.mk "2" "Gift" (JS.Finite false 10 0) "constructor" "2025-01-16".

Definition odd_summary : Summary.t :=
  Summary.mk "constructor" (JS.Finite false 10 0) (JS.Finite false 1 0)
             (JS.Finite false 100 0).

(** 2025-01-15T12:14:56.789Z. *)
Definition noon : JS.Date := 1736943296789%Z.

(** A service that answers every request, a user who confirms. *)
Definition service_up : Env :=
  mkEnv (Some "http://localhost:8001")
        (fun _ => Some [lunch]) (fun _ => Some ["Alimentação"; "Transporte"])
        (fun _ => Some lunch_stats) (fun _ => Some [lunch_summary])
        (fun _ => true) (fun _ => true) (fun _ => noon) (fun _ => []).

(** The same service rejecting every POST, PUT and DELETE. *)
Definition service_read_only : Env :=
  mkEnv (Some "http://localhost:8001")
        (fun _ => Some [lunch]) (fun _ => Some ["Alimentação"; "Transporte"])
        (fun _ => Some lunch_stats) (fun _ => Some [lunch_summary])
        (fun _ => false) (fun _ => true) (fun _ => noon) (fun _ => []).

(** The same service with the categories endpoint down, replies arriving
    in reverse order. *)
Definition categories_down : Env :=
  mkEnv (Some "http://localhost:8001")
        (fun _ => Some [lunch]) (fun _ => None)
        (fun _ => Some lunch_stats) (fun _ => Some [lunch_summary])
        (fun _ => true) (fun _ => true) (fun _ => noon) (fun _ => [3; 2; 1]).

(** Expenses and categories both down, replies arriving in the order
    given by [picks]. *)
Definition two_down (picks : list nat) : Env :=
  mkEnv (Some "http://localhost:8001")
        (fun _ => None) (fun _ => None)
        (fun _ => Some lunch_stats) (fun _ => Some [lunch_summary])
        (fun _ => true) (fun _ => true) (fun _ => noon) (fun _ => picks).

(** The user opens the form and leaves it empty. *)
Definition form_empty (env : Env) : World := run env [NewExpense] (boot env).

(** The user opens the form and fills it in. *)
Definition form_filled (env : Env) : World :=
  run env [ NewExpense; Change Form.Description "Lunch";
            Change Form.Amount "25.50"; Change Form.Category "Alimentação" ]
      (boot env).

(** The user edits the lunch record. *)
Definition form_editing (env : Env) : World := run env [Edit lunch] (boot env).

(* ================================================================== *)
(** ** More of the component                                           *)
(* ================================================================== *)

(** The chart data of lines 192-200. *)
Module Chart.
Record dataset : Type := mkDataset {
  data : list JS.number;
  backgroundColor : list JS.value;
  borderWidth : nat;
  hoverOffset : nat
}.

Record t : Type := mk {
  labels : list string;
  datasets : list dataset
}.
End Chart.




(** *** Vocabulary *)

(** The text of an input of the form. *)
Definition field_of (f : Form.t) (name : Form.field) : string :=
  match name with
  | Form.Description => Form.description f
  | Form.Amount => Form.amount f
  | Form.Category => Form.category f
  | Form.Date => Form.date f
  end.

Definition field_eqb (a b : Form.field) : bool :=
  match a, b with
  | Form.Description, Form.Description | Form.Amount, Form.Amount
  | Form.Category, Form.Category | Form.Date, Form.Date => true
  | _, _ => false
  end.

(** The events that open the form or type into it. *)
Definition form_only (ev : Event) : bool :=
  match ev with
  | NewExpense | Edit _ | Change _ _ => true
  | Delete _ | Submit | Cancel => false
  end.

(** The events whose handler has no [await]. *)
Definition synchronous (ev : Event) : bool :=
  match ev with
  | NewExpense | Edit _ | Change _ _ | Cancel => true
  | Delete _ | Submit => false
  end.

(** Whether the handler of [ev] reaches its call of [loadAllData]: a
    submit that succeeds, a deletion confirmed and accepted. *)
Definition reloads (env : Env) (ev : Event) (w : World) : bool :=
  match ev with
  | Submit => submit_succeeds env w
  | Delete _ => window_confirm env (tick w) && reply_mutation env (1 + tick w)
  | _ => false
  end.

(** The argument of every [setError] call but the two that clear. *)
Definition messages : list string :=
  [ "Erro ao carregar despesas"; "Erro ao carregar categorias";
    "Erro ao carregar estatísticas"; "Erro ao carregar resumo por categoria";
    "Todos os campos são obrigatórios";
    "Erro ao atualizar despesa"; "Erro ao criar despesa";
    "Erro ao excluir despesa" ].




(** *** Numbers and their text *)

(** Every character of [s] is a decimal digit. *)
Fixpoint all_digits (s : string) : bool :=
  match s with
  | String c r => JS.is_digit c && all_digits r
  | EmptyString => true
  end.

(** The number [x] with the trailing zeros of its digits moved into the
    exponent and with zero as [+0]: the same number, in the form in which
    [parseFloat] returns it. *)
Definition normal (x : JS.number) : JS.number :=
  match x with
  | JS.Finite negative m e =>
      if (m =? 0)%N then JS.Finite false 0 0
      else
        let (z, r) := JS.drop_zeros (JS.rev (JS.decimal m)) in
        JS.Finite negative (JS.digits_value (JS.rev r)) (e + Z.of_nat z)
  | _ => x
  end.

(** What may follow a run of digits: nothing, or a character that is not
    a digit. *)
Definition stops (rest : string) : Prop :=
  match rest with
  | String c _ => JS.is_digit c = false
  | EmptyString => True
  end.

(** What [unsigned_literal] finds in digits, an optional point with more
    digits, and a tail that is empty or an exponent part. *)
Definition literal_value (negative : bool) (int frac : string) (expo : Z)
  : JS.number :=
  let (z, r) := JS.drop_zeros (JS.rev (int ++ frac)) in
  let m := JS.digits_value (JS.rev r) in
  if (m =? 0)%N then JS.Finite negative 0 0
  else JS.Finite negative m (expo - Z.of_nat (String.length frac) + Z.of_nat z).

(** What [Number.prototype.toString] writes after the digits: nothing, or
    an exponent part. *)
Definition tail_ok (tail : string) : Prop :=
  tail = "" \/ exists t, tail = String "e" t.


(** *** Dates *)

(** A clock reading in the years 0 to 9999. *)
Definition four_digit_year (t : JS.Date) : Prop :=
  (-62167219200000 <= t < 253402300800000)%Z.

(** A text of the form YYYY-MM-DD, with a month from 01 to 12 and a day
    from 01 to 31. *)
Definition iso_day (s : string) : Prop :=
  exists y m d,
    s = y ++ "-" ++ m ++ "-" ++ d /\
    all_digits y = true /\ String.length y = 4 /\
    all_digits m = true /\ String.length m = 2 /\
    all_digits d = true /\ String.length d = 2 /\
    (1 <= JS.digits_value m <= 12)%N /\
    (1 <= JS.digits_value d <= 31)%N.

(* ================================================================== *)
(** ** Properties of the runtime                                       *)
(* ================================================================== *)

Lemma truthy_false_iff (s : string) : JS.truthy s = false <-> s = "".
Proof.
  destruct s as [|c r]; simpl; split; congruence.
Qed.

Lemma truthy_true_iff (s : string) : JS.truthy s = true <-> s <> "".
Proof.
  destruct s as [|c r]; simpl; split; congruence.
Qed.

Lemma valid_false_iff (f : Form.t) :
  valid f = false <->
  Form.description f = "" \/ Form.amount f = "" \/ Form.category f = "".
Proof.
  unfold valid. rewrite <- !truthy_false_iff.
  destruct (JS.truthy (Form.description f)), (JS.truthy (Form.amount f)),
    (JS.truthy (Form.category f)); cbn; intuition congruence.
Qed.

Lemma valid_true_iff (f : Form.t) :
  valid f = true <->
  Form.description f <> "" /\ Form.amount f <> "" /\ Form.category f <> "".
Proof.
  unfold valid. rewrite <- !truthy_true_iff.
  destruct (JS.truthy (Form.description f)), (JS.truthy (Form.amount f)),
    (JS.truthy (Form.category f)); cbn; intuition congruence.
Qed.

(** What [parseFloat] and [Number.prototype.toString] give on familiar
    inputs. *)
Example parseFloat_samples :
  map JS.parseFloat [ "25.50"; "  -1.5e3 BRL"; ".5"; "1e"; "-0"; "abc"; ""; "."; "-Infinity" ]
  = [ JS.Finite false 255 (-1); JS.Finite true 15 2; JS.Finite false 5 (-1);
      JS.Finite false 1 0; JS.Finite true 0 0; JS.NaN; JS.NaN; JS.NaN;
      JS.Infinity true ].
Proof. reflexivity. Qed.

Example Number_toString_samples :
  map JS.Number_toString
      [ JS.Finite false 2550 (-2); JS.Finite true 15 2; JS.Finite false 1 21;
        JS.Finite false 1 (-6); JS.Finite false 15 (-8); JS.Finite true 0 0;
        JS.NaN ]
  = [ "25.5"; "-1500"; "1e+21"; "0.000001"; "1.5e-7"; "0"; "NaN" ].
Proof. reflexivity. Qed.

(** A text that begins with a small Latin letter is not a number. *)
Lemma parseFloat_of_word (c : ascii) (r : string) :
  ((97 <=? nat_of_ascii c) && (nat_of_ascii c <=? 122))%nat = true ->
  JS.parseFloat (String c r) = JS.NaN.
Proof.
  destruct c as [[] [] [] [] [] [] [] []]; intros H;
    vm_compute in H; try discriminate H;
    destruct r as [|b [|c' r']]; vm_compute; reflexivity.
Qed.

Example toISOString_samples :
  map JS.toISOString [ 0%Z; noon; (-1)%Z; 951782400000%Z ]
  = [ "1970-01-01T00:00:00.000Z"; "2025-01-15T12:14:56.789Z";
      "1969-12-31T23:59:59.999Z"; "2000-02-29T00:00:00.000Z" ].
Proof. reflexivity. Qed.

(** *** The date part of the ISO format *)

Lemma free_of_app (sep : ascii) (a b : string) :
  free_of sep (a ++ b) = free_of sep a && free_of sep b.
Proof.
  induction a as [|c a IH]; cbn; [reflexivity|].
  now rewrite IH, andb_assoc.
Qed.

Lemma split_0_app (sep : ascii) (a b : string) :
  free_of sep a = true -> JS.split_0 sep (a ++ String sep b) = a.
Proof.
  induction a as [|c a IH]; cbn; intros H.
  - now rewrite Ascii.eqb_refl.
  - apply andb_prop in H as [Hc Ha].
    destruct (Ascii.eqb c sep); [discriminate|].
    now rewrite IH.
Qed.

Lemma digit_not_T (k : N) :
  (k < 10)%N -> Ascii.eqb (ascii_of_N (48 + k)) "T" = false.
Proof.
  intros Hk.
  assert (H : (k = 0 \/ k = 1 \/ k = 2 \/ k = 3 \/ k = 4 \/ k = 5 \/ k = 6
               \/ k = 7 \/ k = 8 \/ k = 9)%N) by lia.
  repeat (destruct H as [-> | H]; [reflexivity|]). now subst.
Qed.

Lemma digits_of_free (fuel : nat) :
  forall n acc, free_of "T" acc = true ->
                free_of "T" (JS.digits_of fuel n acc) = true.
Proof.
  induction fuel as [|fuel IH]; intros n acc Hacc; cbn [JS.digits_of].
  - exact Hacc.
  - assert (Hd : free_of "T" (String (ascii_of_N (48 + n mod 10)) acc) = true).
    { cbn [free_of]. rewrite digit_not_T, Hacc; [reflexivity|].
      apply N.mod_lt. discriminate. }
    destruct (n / 10 =? 0)%N; [exact Hd | now apply IH].
Qed.

Lemma zeros_free (n : nat) : free_of "T" (JS.zeros n) = true.
Proof.
  induction n as [|n IH]; cbn; [reflexivity | exact IH].
Qed.

Lemma pad_free (width : nat) (n : Z) : free_of "T" (JS.pad width n) = true.
Proof.
  unfold JS.pad, JS.decimal.
  now rewrite free_of_app, zeros_free, digits_of_free.
Qed.

Lemma iso_date_free (d : JS.Date) : free_of "T" (JS.iso_date d) = true.
Proof.
  unfold JS.iso_date.
  destruct (JS.civil_from_days (d / JS.msPerDay)) as [[y m] dd].
  destruct ((0 <=? y)%Z && (y <=? 9999)%Z); [|destruct (y <? 0)%Z];
    repeat (rewrite free_of_app || rewrite pad_free || cbn [free_of append]);
    reflexivity.
Qed.

(** [new Date().toISOString().split('T')[0]] is the calendar date (UTC)
    of the clock reading. *)
Lemma split_toISOString (d : JS.Date) :
  JS.split_0 "T" (JS.toISOString d) = JS.iso_date d.
Proof.
  unfold JS.toISOString.
  change (JS.iso_date d ++ "T" ++ JS.iso_time d ++ "Z")
    with (JS.iso_date d ++ String "T" (JS.iso_time d ++ "Z")).
  apply split_0_app, iso_date_free.
Qed.

(** *** The arrival order is a permutation of the pending promises *)

Lemma remove_nth_length {A} (l : list A) :
  forall i, i < length l -> length (remove_nth i l) = pred (length l).
Proof.
  induction l as [|x l IH]; intros i Hi; simpl in *.
  - lia.
  - destruct i as [|i]; [reflexivity|].
    simpl. rewrite IH by lia. destruct l; simpl in *; lia.
Qed.

Lemma nth_remove_nth_perm {A} (d : A) (l : list A) :
  forall i, i < length l -> Permutation (nth i l d :: remove_nth i l) l.
Proof.
  induction l as [|x l IH]; intros i Hi; simpl in *.
  - lia.
  - destruct i as [|i].
    + apply Permutation_refl.
    + simpl. eapply perm_trans.
      * apply perm_swap.
      * apply perm_skip. apply IH. lia.
Qed.

Lemma in_nth_index {A} (d x : A) (l : list A) :
  In x l -> exists i, i < length l /\ nth i l d = x.
Proof.
  induction l as [|y l IH]; cbn; [contradiction|].
  intros [-> | Hin].
  - exists 0. split; [lia | reflexivity].
  - destruct (IH Hin) as (i & Hi & Hx). exists (S i). split; [lia | exact Hx].
Qed.

Lemma drain_perm (fuel : nat) :
  forall picks pending, fuel = length pending ->
  Permutation (drain fuel picks pending) pending.
Proof.
  induction fuel as [|fuel IH]; intros picks pending Hlen.
  - destruct pending; [constructor | discriminate].
  - cbn [drain].
    assert (Hlt : hd 0 picks mod length pending < length pending)
      by (apply Nat.mod_upper_bound; lia).
    eapply perm_trans;
      [| apply (nth_remove_nth_perm 0 pending _ Hlt)].
    apply perm_skip, IH.
    rewrite remove_nth_length by exact Hlt. lia.
Qed.

(** Every order of arrival is the schedule of some picks. *)
Lemma drain_complete (order : list nat) :
  forall fuel pending, fuel = length pending -> Permutation order pending ->
  exists picks, drain fuel picks pending = order.
Proof.
  induction order as [|x order IH]; intros fuel pending Hfuel Hperm.
  - apply Permutation_nil in Hperm. subst. now exists [].
  - assert (Hin : In x pending)
      by (apply (Permutation_in x Hperm); now left).
    destruct (in_nth_index 0 x pending Hin) as (i & Hi & Hx).
    assert (Hrest : Permutation order (remove_nth i pending)).
    { apply (Permutation_cons_inv (a := x)).
      eapply perm_trans; [exact Hperm|].
      apply Permutation_sym. rewrite <- Hx.
      now apply nth_remove_nth_perm. }
    destruct fuel as [|fuel]; [lia|].
    destruct (IH fuel (remove_nth i pending)) as (picks & Hpicks);
      [rewrite remove_nth_length by exact Hi; lia | exact Hrest |].
    exists (i :: picks).
    cbn [drain hd tl].
    rewrite (Nat.mod_small i) by exact Hi.
    now rewrite Hx, Hpicks.
Qed.

Lemma schedule_perm (picks : list nat) (n : nat) :
  Permutation (schedule picks n) (seq 0 n).
Proof.
  unfold schedule. apply drain_perm. now rewrite length_seq.
Qed.

Lemma schedule_complete (order : list nat) (n : nat) :
  Permutation order (seq 0 n) -> exists picks, schedule picks n = order.
Proof.
  intros Hperm. unfold schedule.
  apply drain_complete; [now rewrite length_seq | exact Hperm].
Qed.

(* ================================================================== *)
(** ** [loadAllData]                                                   *)
(* ================================================================== *)

(** Case analysis over the four fetch functions and their replies, for a
    goal about [settled env t i w]. *)
Ltac each_fetch env t i :=
  unfold settled;
  destruct i as [|[|[|[|i]]]]; cbn;
  unfold try_catch, bind, await; cbn;
  [ destruct (reply_expenses env t)
  | destruct (reply_categories env (S t))
  | destruct (reply_stats env (S (S t)))
  | destruct (reply_summaries env (S (S (S t))))
  | destruct i ].

(** Folds the iteration over the arrival order back into [settled_in]. *)
Ltac fold_settled env t :=
  match goal with
  | |- context [fold_left (fun w0 i0 => settled env t i0 w0) ?l ?x] =>
      change (fold_left (fun w0 i0 => settled env t i0 w0) l x)
        with (settled_in env t l x)
  end.

Section Loading.

Variable env : Env.

Lemma send_all_fetches (w : World) :
  send_all (fetches env) w =
  (Returned (tickets env (tick w)),
   mkWorld (app w) (requests w ++ load_requests env) (prompts w) (console w)
           (4 + tick w)).
Proof.
  unfold send_all, fetches, send, ticket, bind, ret, load_requests, tickets.
  cbn. repeat rewrite <- app_assoc. reflexivity.
Qed.

(** No fetch function lets a rejection escape: each catches its own. *)
Lemma fetch_never_throws (t i : nat) (f : Async) (w : World) :
  nth_error (fetches env) i = Some f ->
  fst (resumes f t w) = Returned tt.
Proof.
  destruct i as [|[|[|[|i]]]]; cbn; intros H;
    [injection H as <- .. | destruct i; discriminate]; cbn;
    unfold try_catch, bind, await, set, console_error; cbn.
  - destruct (reply_expenses env t); reflexivity.
  - destruct (reply_categories env t); reflexivity.
  - destruct (reply_stats env t); reflexivity.
  - destruct (reply_summaries env t); reflexivity.
Qed.

Lemma settle_tickets (t : nat) (order : list nat) :
  forall w, settle (tickets env t) order w = (Returned tt, settled_in env t order w).
Proof.
  induction order as [|i order IH]; intros w; [reflexivity|].
  cbn [settle settled_in fold_left].
  destruct i as [|[|[|[|i]]]]; cbn [nth_error tickets].
  5: { replace (nth_error (@nil (nat * Async)) i) with (@None (nat * Async))
         by (destruct i; reflexivity).
       rewrite IH. unfold settled_in, settled.
       replace (nth_error (fetches env) (S (S (S (S i))))) with (@None Async)
         by (destruct i; reflexivity).
       reflexivity. }
  all: match goal with
       | |- context [resumes ?f ?u ?x] =>
           pose proof (fun i => fetch_never_throws u i f x) as Hf;
           destruct (resumes f u x) as [[[]|e] w'] eqn:Hr
       end.
  all: try (rewrite IH; unfold settled_in, settled; cbn [nth_error fetches];
            change (0 + t) with t; rewrite Hr; reflexivity).
  all: exfalso;
    first [ specialize (Hf 0 eq_refl) | specialize (Hf 1 eq_refl)
          | specialize (Hf 2 eq_refl) | specialize (Hf 3 eq_refl) ];
    cbn in Hf; discriminate.
Qed.

(** [loadAllData], run: the four requests are sent in order, the
    continuations run in the order of arrival, and [loading] ends [false]. *)
Lemma loadAllData_run (w : World) :
  loadAllData env w =
  (Returned tt,
   let w' := settled_in env (tick w) (load_order env (tick w))
               (mkWorld (setLoading true (app w))
                        (requests w ++ load_requests env)
                        (prompts w) (console w) (5 + tick w)) in
   mkWorld (setLoading false (app w')) (requests w') (prompts w') (console w')
           (tick w')).
Proof.
  unfold loadAllData, Promise_all.
  unfold bind at 1. cbn [set].
  unfold bind at 1. unfold bind at 1.
  change [fetchExpenses env; fetchCategories env; fetchDashboardStats env;
          fetchCategorySummaries env] with (fetches env).
  rewrite send_all_fetches. cbn [app requests prompts console tick].
  unfold bind at 1, ticket at 1. cbn [app requests prompts console tick].
  rewrite settle_tickets. cbn [length fetches].
  unfold load_order. cbn [set Nat.add]. reflexivity.
Qed.

(** What one settled promise changes: its own slot when it resolves, the
    error message (and the console) when it rejects, nothing else. *)
Lemma settled_frame (t i : nat) (w : World) :
  let w' := settled env t i w in
  requests w' = requests w /\ prompts w' = prompts w /\ tick w' = tick w /\
  loading (app w') = loading (app w) /\ showForm (app w') = showForm (app w) /\
  editingExpense (app w') = editingExpense (app w) /\
  formData (app w') = formData (app w).
Proof. each_fetch env t i; cbn; repeat split. Qed.

Lemma settled_error (t i : nat) (w : World) :
  error (app (settled env t i w)) =
  if rejected env t i then load_message i else error (app w).
Proof. unfold rejected. each_fetch env t i; reflexivity. Qed.

Lemma settled_expenses (t i : nat) (w : World) :
  expenses (app (settled env t i w)) =
  if (i =? 0)%nat
  then match reply_expenses env t with
       | Some data => data
       | None => expenses (app w)
       end
  else expenses (app w).
Proof. each_fetch env t i; reflexivity. Qed.

Lemma settled_categories (t i : nat) (w : World) :
  categories (app (settled env t i w)) =
  if (i =? 1)%nat
  then match reply_categories env (1 + t) with
       | Some data => data
       | None => categories (app w)
       end
  else categories (app w).
Proof. each_fetch env t i; reflexivity. Qed.

Lemma settled_dashboardStats (t i : nat) (w : World) :
  dashboardStats (app (settled env t i w)) =
  if (i =? 2)%nat
  then match option_map Some (reply_stats env (2 + t)) with
       | Some data => data
       | None => dashboardStats (app w)
       end
  else dashboardStats (app w).
Proof. each_fetch env t i; reflexivity. Qed.

Lemma settled_categorySummaries (t i : nat) (w : World) :
  categorySummaries (app (settled env t i w)) =
  if (i =? 3)%nat
  then match reply_summaries env (3 + t) with
       | Some data => data
       | None => categorySummaries (app w)
       end
  else categorySummaries (app w).
Proof. each_fetch env t i; reflexivity. Qed.

(** A slot written only by promise [k] holds, once [k] has settled, the
    data of its reply, or what it held before when the reply is a
    rejection; the order of arrival does not matter. *)
Lemma settled_in_slot {A} (proj : World -> A) (k : nat) (reply : option A)
      (t : nat) :
  (forall i w, proj (settled env t i w) =
               if (i =? k)%nat
               then match reply with Some d => d | None => proj w end
               else proj w) ->
  forall order w,
    proj (settled_in env t order w) =
    if existsb (Nat.eqb k) order
    then match reply with Some d => d | None => proj w end
    else proj w.
Proof.
  intros Hstep order.
  induction order as [|i order IH]; intros w; [reflexivity|].
  cbn [settled_in fold_left existsb]. fold_settled env t.
  rewrite IH, Hstep, (Nat.eqb_sym k i).
  destruct (i =? k)%nat, (existsb (Nat.eqb k) order), reply; reflexivity.
Qed.

Lemma settled_in_frame (t : nat) (order : list nat) :
  forall w,
    let w' := settled_in env t order w in
    requests w' = requests w /\ prompts w' = prompts w /\ tick w' = tick w /\
    loading (app w') = loading (app w) /\ showForm (app w') = showForm (app w) /\
    editingExpense (app w') = editingExpense (app w) /\
    formData (app w') = formData (app w).
Proof.
  induction order as [|i order IH]; intros w; cbn zeta.
  - repeat split.
  - cbn [settled_in fold_left]. fold_settled env t.
    destruct (IH (settled env t i w)) as (H1 & H2 & H3 & H4 & H5 & H6 & H7).
    destruct (settled_frame t i w) as (G1 & G2 & G3 & G4 & G5 & G6 & G7).
    repeat split; congruence.
Qed.

(** The error message after the promises have settled in [order]: the
    message of the rejected request that settled last, the previous
    message when none was rejected. *)
Lemma settled_in_error_from (t : nat) (d : string) (order : list nat) :
  forall w acc,
    error (app w) = message_of acc d ->
    error (app (settled_in env t order w)) =
    message_of (last_rejected env t order acc) d.
Proof.
  induction order as [|i order IH]; intros w acc Hacc; [exact Hacc|].
  cbn [settled_in fold_left last_rejected].
  apply (IH (settled env t i w) (if rejected env t i then Some i else acc)).
  rewrite settled_error.
  destruct (rejected env t i); [reflexivity | exact Hacc].
Qed.

Lemma settled_in_error (t : nat) (order : list nat) (w : World) :
  error (app (settled_in env t order w)) =
  message_of (last_rejected env t order None) (error (app w)).
Proof.
  now apply settled_in_error_from.
Qed.

(** When exactly request [i] is rejected, it is the last rejected one in
    any order that contains it. *)
Lemma last_rejected_only (t i : nat) (order : list nat) :
  rejected env t i = true ->
  (forall j, j <> i -> rejected env t j = false) ->
  In i order ->
  last_rejected env t order None = Some i.
Proof.
  intros Hi Hothers.
  assert (G : forall l acc, (acc = None \/ acc = Some i) ->
              (In i l \/ acc = Some i) ->
              last_rejected env t l acc = Some i).
  { induction l as [|j l IHl]; intros acc Hacc Hin; cbn.
    - destruct Hin as [[]|Hin]; exact Hin.
    - apply IHl.
      + destruct (Nat.eq_dec j i) as [->|Hne].
        * rewrite Hi. now right.
        * rewrite (Hothers j Hne). exact Hacc.
      + destruct (Nat.eq_dec j i) as [->|Hne].
        * rewrite Hi. now right.
        * rewrite (Hothers j Hne).
          destruct Hin as [[Hji|Hin]|Hin]; [congruence | now left | now right]. }
  intros Hin. apply G; [now left | now left].
Qed.

Lemma last_rejected_none (t : nat) (order : list nat) :
  (forall j, rejected env t j = false) ->
  last_rejected env t order None = None.
Proof.
  intros Hnone. unfold last_rejected.
  induction order as [|j l IHl]; cbn; [reflexivity|].
  now rewrite Hnone.
Qed.

Lemma load_order_complete (t i : nat) :
  i < 4 -> In i (load_order env t).
Proof.
  intros Hi. unfold load_order.
  apply (Permutation_in i (Permutation_sym (schedule_perm _ 4))).
  apply in_seq. lia.
Qed.

Lemma load_order_existsb (t i : nat) :
  i < 4 -> existsb (Nat.eqb i) (load_order env t) = true.
Proof.
  intros Hi. apply existsb_exists. exists i. split.
  - now apply load_order_complete.
  - apply Nat.eqb_refl.
Qed.

(** Everything [loadAllData] does, slot by slot. *)
Lemma loadAllData_effect (w : World) :
  let t := tick w in
  let w' := snd (loadAllData env w) in
  fst (loadAllData env w) = Returned tt /\
  requests w' = (requests w ++ load_requests env)%list /\
  prompts w' = prompts w /\
  tick w' = 5 + t /\
  loading (app w') = false /\
  showForm (app w') = showForm (app w) /\
  editingExpense (app w') = editingExpense (app w) /\
  formData (app w') = formData (app w) /\
  expenses (app w') =
    match reply_expenses env t with
    | Some data => data | None => expenses (app w) end /\
  categories (app w') =
    match reply_categories env (1 + t) with
    | Some data => data | None => categories (app w) end /\
  dashboardStats (app w') =
    match reply_stats env (2 + t) with
    | Some data => Some data | None => dashboardStats (app w) end /\
  categorySummaries (app w') =
    match reply_summaries env (3 + t) with
    | Some data => data | None => categorySummaries (app w) end /\
  error (app w') =
    message_of (last_rejected env t (load_order env t) None) (error (app w)).
Proof.
  cbn zeta. rewrite loadAllData_run. cbn [fst snd].
  set (w0 := mkWorld (setLoading true (app w)) (requests w ++ load_requests env)
                     (prompts w) (console w) (5 + tick w)).
  set (o := load_order env (tick w)).
  destruct (settled_in_frame (tick w) o w0) as (H1 & H2 & H3 & _ & H5 & H6 & H7).
  cbn [app requests prompts tick loading showForm editingExpense formData
       expenses categories dashboardStats categorySummaries error setLoading].
  repeat split; try assumption.
  - rewrite (settled_in_slot (fun w => expenses (app w)) 0 (reply_expenses env (tick w)))
      by apply settled_expenses.
    unfold o. now rewrite load_order_existsb by lia.
  - rewrite (settled_in_slot (fun w => categories (app w)) 1
               (reply_categories env (1 + tick w)))
      by apply settled_categories.
    unfold o. now rewrite load_order_existsb by lia.
  - rewrite (settled_in_slot (fun w => dashboardStats (app w)) 2
               (option_map Some (reply_stats env (2 + tick w))))
      by apply settled_dashboardStats.
    unfold o. rewrite load_order_existsb by lia.
    now destruct (reply_stats env (2 + tick w)).
  - rewrite (settled_in_slot (fun w => categorySummaries (app w)) 3
               (reply_summaries env (3 + tick w)))
      by apply settled_categorySummaries.
    unfold o. now rewrite load_order_existsb by lia.
  - now rewrite settled_in_error.
Qed.

End Loading.

(** Brings the effect of the [loadAllData] in the goal into the context. *)
Ltac reloaded H :=
  match goal with
  | |- context [loadAllData ?env ?W] =>
      pose proof (loadAllData_effect env W) as H; cbn zeta in H
  end.

(** Two rejections: the message on display is that of the one that
    arrived last, whichever it is. *)
Example last_rejection_wins :
  error (app (boot (two_down []))) = "Erro ao carregar categorias" /\
  error (app (boot (two_down [3; 2; 1]))) = "Erro ao carregar despesas".
Proof. split; reflexivity. Qed.

(* ================================================================== *)
(** ** The handlers, run                                               *)
(* ================================================================== *)

(** For a goal [try { ...; await loadAllData() } catch ... = loadAllData
    env W]: the [loadAllData] on the left runs in [W] and returns, so the
    handler is not reached. *)
Ltac through_load :=
  match goal with
  | |- _ = loadAllData ?env ?W =>
      match goal with
      | |- context [loadAllData env ?x] => change x with W
      end;
      let H := fresh "Hret" in
      pose proof (loadAllData_effect env W) as [H _];
      destruct (loadAllData env W) as [[[]|?] ?];
      first [reflexivity | discriminate H]
  end.

Section Handlers.

Variable env : Env.

Lemma today_run (w : World) :
  today env w =
  (Returned (JS.iso_date (clock env (tick w))),
   mkWorld (app w) (requests w) (prompts w) (console w) (S (tick w))).
Proof.
  cbv beta iota delta [today new_Date bind ticket ret].
  cbn [app requests prompts console tick].
  now rewrite split_toISOString.
Qed.

Lemma handleSubmit_invalid (w : World) :
  valid (formData (app w)) = false ->
  handleSubmit env w =
  (Returned tt,
   mkWorld (setError "Todos os campos são obrigatórios" (app w))
           (requests w) (prompts w) (console w) (tick w)).
Proof.
  unfold valid, handleSubmit, rendered, bind. intros H.
  destruct (JS.truthy (Form.description (formData (app w)))),
    (JS.truthy (Form.amount (formData (app w)))),
    (JS.truthy (Form.category (formData (app w)))); try discriminate;
    reflexivity.
Qed.

(** A valid [handleSubmit] is its request followed by [submit_settled]. *)
Lemma handleSubmit_split (w : World) :
  valid (formData (app w)) = true ->
  handleSubmit env w =
  (t <- send (submit_request env (app w)) ;;
   submit_settled env (editingExpense (app w)) t) w.
Proof.
  unfold valid, handleSubmit, rendered, bind at 1. intros H.
  destruct (JS.truthy (Form.description (formData (app w)))),
    (JS.truthy (Form.amount (formData (app w)))),
    (JS.truthy (Form.category (formData (app w)))); try discriminate.
  cbn [negb orb].
  unfold submit_settled, submit_request, try_catch.
  destruct (editingExpense (app w)) as [editing|];
    unfold axios_put, axios_post, bind, send, ticket;
    cbn [app requests prompts console tick]; reflexivity.
Qed.

(** Whatever the world has become while the request was pending, a
    rejection changes the error message and the console, nothing else. *)
Lemma submit_settled_rejected (editing : option Expense.t) (t : nat) (w : World) :
  reply_mutation env t = false ->
  submit_settled env editing t w =
  (Returned tt,
   mkWorld (setError (match editing with
                      | Some _ => "Erro ao atualizar despesa"
                      | None => "Erro ao criar despesa"
                      end) (app w))
           (requests w) (prompts w) (console w ++ ["Error saving expense:"])
           (tick w)).
Proof.
  intros Hr. unfold submit_settled, try_catch.
  unfold bind at 1. rewrite Hr. reflexivity.
Qed.

(** Whatever the world has become while the request was pending, an
    acceptance resets the form and reloads. *)
Lemma submit_settled_accepted (editing : option Expense.t) (t : nat) (w : World) :
  reply_mutation env t = true ->
  submit_settled env editing t w =
  loadAllData env
    (mkWorld (after_submit (clock env (tick w)) (app w))
             (requests w) (prompts w) (console w) (S (tick w))).
Proof.
  intros Hr. unfold submit_settled, try_catch.
  unfold bind at 1. rewrite Hr. cbn [await ret].
  unfold bind at 1. rewrite today_run.
  unfold bind, set. cbn [app requests prompts console tick].
  through_load.
Qed.

Lemma handleSubmit_rejected (w : World) :
  valid (formData (app w)) = true ->
  reply_mutation env (tick w) = false ->
  handleSubmit env w =
  (Returned tt,
   mkWorld (setError (submit_message (app w)) (app w))
           (requests w ++ [submit_request env (app w)])
           (prompts w) (console w ++ ["Error saving expense:"]) (S (tick w))).
Proof.
  intros Hv Hr. rewrite (handleSubmit_split w Hv).
  unfold bind at 1, send, bind at 1, ticket.
  cbn [app requests prompts console tick].
  now rewrite (submit_settled_rejected _ _ _ Hr).
Qed.

Lemma handleSubmit_accepted (w : World) :
  valid (formData (app w)) = true ->
  reply_mutation env (tick w) = true ->
  handleSubmit env w =
  loadAllData env
    (mkWorld (after_submit (clock env (1 + tick w)) (app w))
             (requests w ++ [submit_request env (app w)])
             (prompts w) (console w) (2 + tick w)).
Proof.
  intros Hv Hr. rewrite (handleSubmit_split w Hv).
  unfold bind at 1, send, bind at 1, ticket.
  cbn [app requests prompts console tick].
  now rewrite (submit_settled_accepted _ _ _ Hr).
Qed.

Lemma handleEdit_run (expense : Expense.t) (w : World) :
  handleEdit expense w =
  (Returned tt,
   mkWorld
     (setShowForm true
        (setFormData (prefilled expense)
           (setEditingExpense (Some expense) (app w))))
     (requests w) (prompts w) (console w) (tick w)).
Proof. reflexivity. Qed.

Lemma cancelForm_run (w : World) :
  cancelForm env w =
  (Returned tt,
   mkWorld
     (setError ""
        (setFormData (defaults (clock env (tick w)))
           (setEditingExpense None (setShowForm false (app w)))))
     (requests w) (prompts w) (console w) (S (tick w))).
Proof.
  unfold cancelForm.
  unfold bind at 1. cbn [set]. unfold bind at 1. cbn [set].
  unfold bind at 1. rewrite today_run. reflexivity.
Qed.

(** A confirmed [handleDelete] is its request followed by
    [delete_settled]. *)
Lemma handleDelete_split (expenseId : string) (w : World) :
  handleDelete env expenseId w =
  (confirmed <- confirm env delete_prompt ;;
   if negb confirmed then ret tt
   else t <- send (delete_request env expenseId) ;; delete_settled env t) w.
Proof. reflexivity. Qed.

Lemma delete_settled_rejected (t : nat) (w : World) :
  reply_mutation env t = false ->
  delete_settled env t w =
  (Returned tt,
   mkWorld (setError "Erro ao excluir despesa" (app w))
           (requests w) (prompts w) (console w ++ ["Error deleting expense:"])
           (tick w)).
Proof.
  intros Hr. unfold delete_settled, try_catch.
  unfold bind at 1. rewrite Hr. reflexivity.
Qed.

Lemma delete_settled_accepted (t : nat) (w : World) :
  reply_mutation env t = true ->
  delete_settled env t w = loadAllData env w.
Proof.
  intros Hr. unfold delete_settled, try_catch.
  unfold bind at 1. rewrite Hr. cbn [await ret].
  pose proof (loadAllData_effect env w) as [Hret _].
  destruct (loadAllData env w) as [[[]|?] ?]; [reflexivity | discriminate Hret].
Qed.

Lemma handleDelete_run (expenseId : string) (w : World) :
  handleDelete env expenseId w =
  let t := tick w in
  if window_confirm env t then
    if reply_mutation env (1 + t) then
      loadAllData env
        (mkWorld (app w) (requests w ++ [delete_request env expenseId])
                 (prompts w ++ [delete_prompt]) (console w) (2 + t))
    else
      (Returned tt,
       mkWorld (setError "Erro ao excluir despesa" (app w))
               (requests w ++ [delete_request env expenseId])
               (prompts w ++ [delete_prompt])
               (console w ++ ["Error deleting expense:"]) (2 + t))
  else
    (Returned tt,
     mkWorld (app w) (requests w) (prompts w ++ [delete_prompt]) (console w)
             (1 + t)).
Proof.
  cbn zeta. rewrite handleDelete_split.
  unfold bind at 1, confirm, bind at 1, ticket.
  cbn [app requests prompts console tick].
  destruct (window_confirm env (tick w)); cbn [negb]; [|reflexivity].
  unfold bind at 1, send, bind at 1, ticket.
  cbn [app requests prompts console tick].
  destruct (reply_mutation env (1 + tick w)) eqn:Hr.
  - now rewrite (delete_settled_accepted _ _ Hr).
  - now rewrite (delete_settled_rejected _ _ Hr).
Qed.

(** What each event does to the form. *)
Lemma dispatch_form (ev : Event) (w : World) :
  let w' := dispatch env ev w in
  (loading (app w) = false -> loading (app w') = false) /\
  match ev with
  | NewExpense =>
      showForm (app w') = true /\
      editingExpense (app w') = editingExpense (app w) /\
      formData (app w') = formData (app w)
  | Edit expense =>
      showForm (app w') = true /\
      editingExpense (app w') = Some expense /\
      formData (app w') = prefilled expense
  | Cancel =>
      showForm (app w') = false /\
      editingExpense (app w') = None /\
      formData (app w') = defaults (clock env (tick w))
  | Submit =>
      if submit_succeeds env w then
        showForm (app w') = false /\
        editingExpense (app w') = None /\
        formData (app w') = defaults (clock env (1 + tick w))
      else
        showForm (app w') = showForm (app w) /\
        editingExpense (app w') = editingExpense (app w) /\
        formData (app w') = formData (app w)
  | Delete _ =>
      showForm (app w') = showForm (app w) /\
      editingExpense (app w') = editingExpense (app w) /\
      formData (app w') = formData (app w)
  | Change name value =>
      showForm (app w') = showForm (app w) /\
      editingExpense (app w') = editingExpense (app w) /\
      formData (app w') = Form.update (formData (app w)) name value
  end.
Proof.
  cbn zeta. unfold dispatch, submit_succeeds.
  destruct ev as [|expense|expense|name value| |]; cbn [handler].
  - cbn. auto.
  - rewrite handleEdit_run. cbn. auto.
  - rewrite handleDelete_run. cbn zeta.
    destruct (window_confirm env (tick w)); [|cbn; auto].
    destruct (reply_mutation env (1 + tick w)); [|cbn; auto].
    reloaded E. destruct E as (_ & _ & _ & _ & Hl & Hs & He & Hf & _).
    rewrite Hl, Hs, He, Hf. cbn. auto.
  - cbn. auto.
  - destruct (valid (formData (app w))) eqn:Hv.
    + destruct (reply_mutation env (tick w)) eqn:Hr; cbn [andb].
      * rewrite (handleSubmit_accepted w Hv Hr).
        reloaded E. destruct E as (_ & _ & _ & _ & Hl & Hs & He & Hf & _).
        rewrite Hl, Hs, He, Hf. cbn. auto.
      * rewrite (handleSubmit_rejected w Hv Hr). cbn. auto.
    + rewrite (handleSubmit_invalid w Hv). cbn. auto.
  - rewrite cancelForm_run. cbn. auto.
Qed.

Lemma load_message_nonempty (i : nat) : load_message i <> "".
Proof.
  destruct i as [|[|[|i]]]; discriminate.
Qed.

Lemma message_of_nonempty (i : option nat) (d : string) :
  d <> "" -> message_of i d <> "".
Proof.
  destruct i; cbn; [intros _; apply load_message_nonempty | trivial].
Qed.

(** The only events after which a message on display is gone. *)
Lemma dispatch_error (ev : Event) (w : World) :
  error (app w) <> "" ->
  error (app (dispatch env ev w)) = "" ->
  ev = Cancel \/ (ev = Submit /\ submit_succeeds env w = true).
Proof.
  intros Hne. unfold dispatch, submit_succeeds.
  destruct ev as [|expense|expense|name value| |]; cbn [handler].
  - cbn. congruence.
  - rewrite handleEdit_run. cbn. congruence.
  - rewrite handleDelete_run. cbn zeta.
    destruct (window_confirm env (tick w)); [|cbn; congruence].
    destruct (reply_mutation env (1 + tick w)); [|cbn; discriminate].
    reloaded E.
    destruct E as (_ & _ & _ & _ & _ & _ & _ & _ & _ & _ & _ & _ & Herr).
    rewrite Herr. cbn [app error]. intros H.
    now apply message_of_nonempty in H.
  - cbn. congruence.
  - destruct (valid (formData (app w))) eqn:Hv.
    + destruct (reply_mutation env (tick w)) eqn:Hr; [now right|].
      rewrite (handleSubmit_rejected w Hv Hr). cbn.
      unfold submit_message. destruct (editingExpense (app w)); discriminate.
    + rewrite (handleSubmit_invalid w Hv). cbn. discriminate.
  - now left.
Qed.

Lemma boot_form :
  loading (app (boot env)) = false /\
  showForm (app (boot env)) = false /\
  editingExpense (app (boot env)) = None.
Proof.
  unfold boot.
  destruct (loadAllData_effect env (mount env))
    as (_ & _ & _ & _ & Hl & Hs & He & _).
  rewrite Hl, Hs, He. repeat split.
Qed.

(** Between events the spinner is gone, and a closed form has no record
    being edited. *)
Lemma reachable_form (w : World) :
  Reachable env w ->
  loading (app w) = false /\
  (showForm (app w) = false -> editingExpense (app w) = None).
Proof.
  induction 1 as [|w ev Hw [IHl IHe] Hoff].
  - destruct boot_form as (Hl & _ & He). auto.
  - destruct (dispatch_form ev w) as [Hl Hev]. split; [auto|].
    destruct ev; cbn beta iota in Hev;
      try destruct (submit_succeeds env w);
      destruct Hev as (Hs & He & _);
      rewrite ?Hs, ?He; first [exact IHe | congruence | auto].
Qed.

End Handlers.

Lemma count_method_app (m : Method) (a b : list Request) :
  count_method m (a ++ b) = count_method m a + count_method m b.
Proof.
  unfold count_method. now rewrite filter_app, length_app.
Qed.

Lemma modals_at_most_one (s : AppState) : length (modals s) <= 1.
Proof.
  unfold modals. destruct (loading s), (showForm s); cbn; lia.
Qed.

(** The keys of the table are distinct. *)
Lemma CATEGORY_COLORS_keys : NoDup (map fst CATEGORY_COLORS).
Proof.
  cbn. repeat (constructor; [cbn; intuition discriminate|]). constructor.
Qed.

(** The chart, the summary list and the table compute the colour the
    same way. *)
Lemma backgroundColor_sites :
  (forall summaries,
      doughnut_backgroundColor summaries =
      map (fun cat => category_color (Summary.category cat)) summaries) /\
  (forall cat, summary_backgroundColor cat = category_color (Summary.category cat)) /\
  (forall expense,
      expense_backgroundColor expense = category_color (Expense.category expense)).
Proof. repeat split. Qed.

(** A label of the table gets the colour the table gives it. *)
Lemma category_color_mapped (label color : string) :
  In (label, color) CATEGORY_COLORS -> category_color label = JS.str color.
Proof.
  intros H. cbn in H.
  repeat (destruct H as [H | H]; [injection H as <- <-; reflexivity|]).
  contradiction.
Qed.

(** A label that is neither in the table nor the name of a member of
    [Object.prototype] gets the default gray. *)
Lemma category_color_unmapped (label : string) :
  JS.own CATEGORY_COLORS label = None ->
  existsb (String.eqb label) JS.Object_prototype = false ->
  category_color label = JS.str "#64748b".
Proof.
  intros Hown Hproto. unfold category_color, JS.get.
  now rewrite Hown, Hproto.
Qed.

(* ================================================================== *)
(** ** [handleSubmit]                                                  *)
(* ================================================================== *)

(** C1. A submission with an empty description, amount or category sets
    the validation message and returns: no request is sent (so no POST and
    no PUT), and [formData], [showForm] and [editingExpense] are as
    before. *)
Theorem handleSubmit_rejects_empty_field (env : Env) (w : World) :
  Form.description (formData (app w)) = ""
  \/ Form.amount (formData (app w)) = ""
  \/ Form.category (formData (app w)) = "" ->
  let w' := snd (handleSubmit env w) in
  fst (handleSubmit env w) = Returned tt /\
  error (app w') = "Todos os campos são obrigatórios" /\
  requests w' = requests w /\
  formData (app w') = formData (app w) /\
  showForm (app w') = showForm (app w) /\
  editingExpense (app w') = editingExpense (app w).
Proof.
  intros H. apply valid_false_iff in H.
  cbn zeta. rewrite (handleSubmit_invalid env w H). cbn.
  repeat split.
Qed.

Lemma handleSubmit_rejects_empty_field_witness :
  Form.amount (formData (app (form_empty service_up))) = "" /\
  requests (snd (handleSubmit service_up (form_empty service_up))) =
  requests (form_empty service_up).
Proof.
  split; [reflexivity|].
  apply (handleSubmit_rejects_empty_field service_up (form_empty service_up)).
  right; left; reflexivity.
Defined.

(** C2. A valid submission whose request (POST, or PUT to the id of the
    record being edited) is accepted puts the form back to its defaults
    (empty description, amount and category, the date of the day), closes
    it, forgets the record being edited, clears the error message, and
    then runs [loadAllData], which sends the four GET requests. *)
Theorem handleSubmit_success_resets_and_reloads (env : Env) (w : World) :
  valid (formData (app w)) = true ->
  reply_mutation env (tick w) = true ->
  let today := JS.iso_date (clock env (1 + tick w)) in
  let reset :=
    mkWorld (mkState (expenses (app w)) (categories (app w))
                     (dashboardStats (app w)) (categorySummaries (app w))
                     (loading (app w)) "" false None (Form.mk "" "" "" today))
            (requests w ++ [submit_request env (app w)])
            (prompts w) (console w) (2 + tick w) in
  let w' := snd (handleSubmit env w) in
  handleSubmit env w = loadAllData env reset /\
  requests w' = (requests w ++ submit_request env (app w) :: load_requests env)%list /\
  formData (app w') = Form.mk "" "" "" today /\
  showForm (app w') = false /\
  editingExpense (app w') = None.
Proof.
  intros Hv Hr. cbn zeta.
  rewrite (handleSubmit_accepted env w Hv Hr).
  split; [reflexivity|].
  reloaded E. destruct E as (_ & Hreq & _ & _ & _ & Hshow & Hedit & Hform & _).
  rewrite Hreq, Hshow, Hedit, Hform.
  cbn [app requests formData showForm editingExpense after_submit defaults
       setError setEditingExpense setShowForm setFormData].
  rewrite <- app_assoc. auto.
Qed.

Lemma handleSubmit_success_resets_and_reloads_witness :
  valid (formData (app (form_filled service_up))) = true /\
  reply_mutation service_up (tick (form_filled service_up)) = true /\
  formData (app (snd (handleSubmit service_up (form_filled service_up)))) =
  Form.mk "" "" "" "2025-01-15".
Proof.
  split; [reflexivity|]. split; [reflexivity|].
  apply (handleSubmit_success_resets_and_reloads service_up
           (form_filled service_up)); reflexivity.
Defined.

(** C3. A valid submission whose request is rejected sets the message of
    the operation that failed (update when a record is being edited,
    create otherwise) and leaves [formData], [showForm] and
    [editingExpense] as they were. *)
Theorem handleSubmit_failure_keeps_form (env : Env) (w : World) :
  valid (formData (app w)) = true ->
  reply_mutation env (tick w) = false ->
  let w' := snd (handleSubmit env w) in
  fst (handleSubmit env w) = Returned tt /\
  error (app w') = match editingExpense (app w) with
                   | Some _ => "Erro ao atualizar despesa"
                   | None => "Erro ao criar despesa"
                   end /\
  formData (app w') = formData (app w) /\
  showForm (app w') = showForm (app w) /\
  editingExpense (app w') = editingExpense (app w) /\
  requests w' = (requests w ++ [submit_request env (app w)])%list.
Proof.
  intros Hv Hr. cbn zeta.
  rewrite (handleSubmit_rejected env w Hv Hr). cbn.
  repeat split.
Qed.

Lemma handleSubmit_failure_keeps_form_witness :
  valid (formData (app (form_editing service_read_only))) = true /\
  reply_mutation service_read_only (tick (form_editing service_read_only)) = false /\
  error (app (snd (handleSubmit service_read_only
                     (form_editing service_read_only)))) =
  "Erro ao atualizar despesa" /\
  showForm (app (snd (handleSubmit service_read_only
                        (form_editing service_read_only)))) = true.
Proof.
  split; [reflexivity|]. split; [reflexivity|].
  destruct (handleSubmit_failure_keeps_form service_read_only
              (form_editing service_read_only) eq_refl eq_refl)
    as (_ & He & _ & Hs & _).
  split; [exact He | exact Hs].
Defined.

(** C10. Validation only asks for a non-empty amount: there is a non-empty
    amount that [parseFloat] turns into [NaN], and with it (and a
    description and a category) [handleSubmit] does not stop at validation
    but sends its POST or PUT request with [amount = NaN]. *)
Theorem handleSubmit_sends_NaN_amount :
  exists amount : string,
    amount <> "" /\
    JS.parseFloat amount = JS.NaN /\
    forall (env : Env) (w : World),
      Form.amount (formData (app w)) = amount ->
      Form.description (formData (app w)) <> "" ->
      Form.category (formData (app w)) <> "" ->
      exists r : Request,
        nth_error (requests (snd (handleSubmit env w))) (length (requests w))
        = Some r /\
        r = submit_request env (app w) /\
        (method r = POST \/ method r = PUT) /\
        option_map Payload.amount (body r) = Some JS.NaN.
Proof.
  exists "abc". split; [discriminate|]. split; [reflexivity|].
  intros env w Ha Hd Hc.
  assert (Hv : valid (formData (app w)) = true).
  { apply valid_true_iff. rewrite Ha. repeat split; try assumption. discriminate. }
  exists (submit_request env (app w)).
  split; [|split; [reflexivity|split]].
  - destruct (reply_mutation env (tick w)) eqn:Hr.
    + rewrite (handleSubmit_accepted env w Hv Hr).
      reloaded E. destruct E as (_ & Hreq & _).
      rewrite Hreq. cbn [requests]. rewrite <- app_assoc.
      rewrite nth_error_app2 by lia. now rewrite Nat.sub_diag.
    + rewrite (handleSubmit_rejected env w Hv Hr). cbn [snd requests].
      rewrite nth_error_app2 by lia. now rewrite Nat.sub_diag.
  - unfold submit_request. destruct (editingExpense (app w)); cbn; auto.
  - unfold submit_request. rewrite Ha.
    destruct (editingExpense (app w)); reflexivity.
Qed.

(* ================================================================== *)
(** ** [handleEdit]                                                    *)
(* ================================================================== *)

(** C7. [handleEdit] makes the record the one being edited, fills the form
    with its description, category and date as they are and with its
    amount printed as a string, and opens the form; nothing else changes
    and nothing is sent. *)
Theorem handleEdit_prefills_form (expense : Expense.t) (w : World) :
  let w' := snd (handleEdit expense w) in
  fst (handleEdit expense w) = Returned tt /\
  editingExpense (app w') = Some expense /\
  formData (app w') =
    Form.mk (Expense.description expense)
            (JS.Number_toString (Expense.amount expense))
            (Expense.category expense)
            (Expense.date expense) /\
  showForm (app w') = true /\
  expenses (app w') = expenses (app w) /\
  categories (app w') = categories (app w) /\
  dashboardStats (app w') = dashboardStats (app w) /\
  categorySummaries (app w') = categorySummaries (app w) /\
  loading (app w') = loading (app w) /\
  error (app w') = error (app w) /\
  requests w' = requests w.
Proof.
  cbn zeta. rewrite handleEdit_run. cbn. repeat split.
Qed.

(** The amount of the lunch record, 25.50, is shown as [25.5]. *)
Example handleEdit_lunch :
  formData (app (form_editing service_up)) =
  Form.mk "Lunch" "25.5" "Alimentação" "2025-01-15".
Proof. reflexivity. Qed.

(* ================================================================== *)
(** ** [handleDelete]                                                  *)
(* ================================================================== *)

(** C4. [handleDelete] shows the confirmation prompt and sends a DELETE
    request exactly when the user confirms, and then exactly one; without
    confirmation nothing is sent and the state is as before; when the
    request is accepted [loadAllData] runs; when it is rejected the delete
    message is set. *)
Theorem handleDelete_confirmed_once (env : Env) (expenseId : string) (w : World) :
  let t := tick w in
  let w' := snd (handleDelete env expenseId w) in
  let sent :=
    mkWorld (app w) (requests w ++ [delete_request env expenseId])
            (prompts w ++ [delete_prompt]) (console w) (2 + t) in
  prompts w' = (prompts w ++ [delete_prompt])%list /\
  count_method DELETE (requests w') =
    count_method DELETE (requests w) + (if window_confirm env t then 1 else 0) /\
  (if window_confirm env t then
     if reply_mutation env (1 + t) then
       handleDelete env expenseId w = loadAllData env sent
     else
       requests w' = requests sent /\
       app w' = setError "Erro ao excluir despesa" (app w)
   else
     requests w' = requests w /\ app w' = app w).
Proof.
  cbn zeta. rewrite handleDelete_run. cbn zeta.
  destruct (window_confirm env (tick w)).
  - destruct (reply_mutation env (1 + tick w)).
    + reloaded E. destruct E as (_ & Hreq & Hp & _).
      rewrite Hreq, Hp. cbn [requests prompts].
      rewrite !count_method_app. repeat split. cbn. lia.
    + cbn [snd requests prompts app].
      rewrite count_method_app. repeat split.
  - cbn [snd requests prompts app]. repeat split. lia.
Qed.

(** The user confirms the deletion of the lunch record: one DELETE, then
    the four GETs. *)
Example handleDelete_lunch :
  requests (dispatch service_up (Delete lunch) (boot service_up)) =
  (requests (boot service_up)
   ++ mkRequest DELETE "http://localhost:8001/api/expenses/1" None
   :: load_requests service_up)%list.
Proof. reflexivity. Qed.

(* ================================================================== *)
(** ** [loadAllData]: independent failures                             *)
(* ================================================================== *)

(** C5. The four requests of [loadAllData] fail independently.  Whatever
    the other three replies are and in whatever order the four arrive, a
    slot whose request resolves holds the fetched data and a slot whose
    request rejects keeps its previous value; a rejection never escapes
    its fetch function; the error message is that of the rejected request
    that settled last (unchanged when none is rejected), so that when
    exactly one request is rejected the message is that request's own. *)
Theorem loadAllData_failures_independent (env : Env) (w : World) :
  let t := tick w in
  let w' := snd (loadAllData env w) in
  fst (loadAllData env w) = Returned tt /\
  requests w' = (requests w ++ load_requests env)%list /\
  expenses (app w') =
    match reply_expenses env t with
    | Some data => data | None => expenses (app w) end /\
  categories (app w') =
    match reply_categories env (1 + t) with
    | Some data => data | None => categories (app w) end /\
  dashboardStats (app w') =
    match reply_stats env (2 + t) with
    | Some data => Some data | None => dashboardStats (app w) end /\
  categorySummaries (app w') =
    match reply_summaries env (3 + t) with
    | Some data => data | None => categorySummaries (app w) end /\
  error (app w') =
    message_of (last_rejected env t (load_order env t) None) (error (app w)) /\
  (forall i, i < 4 -> rejected env t i = true ->
             (forall j, j <> i -> rejected env t j = false) ->
             error (app w') = load_message i).
Proof.
  cbn zeta.
  destruct (loadAllData_effect env w)
    as (Hret & Hreq & _ & _ & _ & _ & _ & _ & He & Hc & Hs & Hm & Herr).
  repeat split; try assumption.
  intros i Hi Hrej Hothers.
  rewrite Herr, (last_rejected_only env (tick w) i); try assumption.
  - reflexivity.
  - now apply load_order_complete.
Qed.

Lemma loadAllData_failures_independent_witness :
  let w' := snd (loadAllData categories_down (form_filled categories_down)) in
  categories (app w') = [] /\
  expenses (app w') = [lunch] /\
  dashboardStats (app w') = Some lunch_stats /\
  categorySummaries (app w') = [lunch_summary] /\
  error (app w') = "Erro ao carregar categorias".
Proof.
  cbn zeta.
  destruct (loadAllData_failures_independent categories_down
              (form_filled categories_down))
    as (_ & _ & He & Hc & Hs & Hm & _ & Hone).
  split; [exact Hc|]. split; [exact He|]. split; [exact Hs|].
  split; [exact Hm|].
  apply (Hone 1); [lia | reflexivity |].
  intros [|[|[|[|j]]]] Hj; try reflexivity. congruence.
Defined.

(* ================================================================== *)
(** ** The error message                                               *)
(* ================================================================== *)

(** C9. A resolved fetch leaves the error message as it is; after a
    [loadAllData] the message is that of the rejected request that
    settled last, and the previous one when all four resolved; a message
    on display disappears only through [cancelForm] or through a submit
    that passed validation and was accepted, both of which set it to the
    empty string. *)
Theorem error_cleared_only_by_submit_or_cancel (env : Env) :
  (forall t i w, rejected env t i = false ->
                 error (app (settled env t i w)) = error (app w)) /\
  (forall w, error (app (snd (loadAllData env w))) =
             message_of (last_rejected env (tick w) (load_order env (tick w)) None)
                        (error (app w))) /\
  (forall w, (forall i, rejected env (tick w) i = false) ->
             error (app (snd (loadAllData env w))) = error (app w)) /\
  (forall ev w, error (app w) <> "" ->
                error (app (dispatch env ev w)) = "" ->
                ev = Cancel \/ (ev = Submit /\ submit_succeeds env w = true)) /\
  (forall w, error (app (dispatch env Cancel w)) = "") /\
  (forall w, submit_succeeds env w = true ->
             exists before_reload,
               handleSubmit env w = loadAllData env before_reload /\
               error (app before_reload) = "").
Proof.
  split; [|split; [|split; [|split; [|split]]]].
  - intros t i w Hr. now rewrite settled_error, Hr.
  - intros w. apply (loadAllData_effect env w).
  - intros w Hall.
    destruct (loadAllData_effect env w)
      as (_ & _ & _ & _ & _ & _ & _ & _ & _ & _ & _ & _ & Herr).
    now rewrite Herr, last_rejected_none.
  - intros ev w. apply dispatch_error.
  - intros w. unfold dispatch. cbn [handler]. now rewrite cancelForm_run.
  - intros w Hok. apply andb_prop in Hok as [Hv Hr]. eexists. split.
    + apply (handleSubmit_accepted env w Hv Hr).
    + reflexivity.
Qed.

(* ================================================================== *)
(** ** The modal form                                                  *)
(* ================================================================== *)

(** C6, as stated, does not hold: with the empty form open, the edit
    button of a row of the table turns the form to that record. *)
Lemma modal_machine_as_listed_fails : ~ modal_machine_as_listed.
Proof.
  intros H.
  specialize (H service_up (form_empty service_up) (Edit lunch)).
  assert (Hreach : Reachable service_up (form_empty service_up)).
  { apply (Reachable_step service_up (boot service_up) NewExpense).
    - apply Reachable_boot.
    - reflexivity. }
  destruct (H Hreach eq_refl) as [Hnext _].
  vm_compute in Hnext. discriminate Hnext.
Qed.

(** C6, amended. From closed the form opens in create mode (no record
    being edited) on the new-expense action and in edit mode, filled from
    the record, on the edit action; from open it closes on cancel and on a
    successful submit and stays as it is on a failed one; the edit action
    on an open form turns it to edit mode for that record, filled from it;
    no other event changes the state of the modal, and the page never
    holds more than one modal. *)
Theorem modal_state_machine (env : Env) (w : World) (ev : Event) :
  Reachable env w -> offered (app w) ev = true ->
  let w' := dispatch env ev w in
  modal_state (app w') =
    modal_next (modal_state (app w)) ev (submit_succeeds env w) /\
  (forall expense, ev = Edit expense -> formData (app w') = prefilled expense) /\
  (ev = Cancel \/ ev = Submit -> modal_state (app w) <> Closed) /\
  length (modals (app w)) <= 1 /\
  length (modals (app w')) <= 1.
Proof.
  intros Hreach Hoff. cbn zeta.
  destruct (reachable_form env w Hreach) as [Hload Hclosed].
  destruct (dispatch_form env ev w) as [_ Hev].
  unfold offered in Hoff. rewrite Hload in Hoff.
  split; [|split; [|split; [|split; apply modals_at_most_one]]].
  - unfold modal_state.
    destruct ev; cbn beta iota in Hev, Hoff;
      try destruct (submit_succeeds env w);
      destruct Hev as (Hs & He & _); rewrite Hs; try rewrite He;
      try rewrite Hoff;
      destruct (showForm (app w)), (editingExpense (app w));
      first [ reflexivity | discriminate Hoff
            | specialize (Hclosed eq_refl); discriminate Hclosed ].
  - intros expense ->. apply Hev.
  - clear Hev. unfold modal_state.
    intros [-> | ->]; cbn beta iota in Hoff; rewrite Hoff;
      destruct (editingExpense (app w)); discriminate.
Qed.

Lemma modal_state_machine_witness :
  Reachable service_up (form_empty service_up) /\
  offered (app (form_empty service_up)) (Edit lunch) = true /\
  modal_state (app (form_empty service_up)) = OpenCreate /\
  modal_state (app (dispatch service_up (Edit lunch) (form_empty service_up)))
  = OpenEdit lunch.
Proof.
  assert (Hreach : Reachable service_up (form_empty service_up)).
  { apply (Reachable_step service_up (boot service_up) NewExpense).
    - apply Reachable_boot.
    - reflexivity. }
  split; [exact Hreach|]. split; [reflexivity|]. split; [reflexivity|].
  destruct (modal_state_machine service_up (form_empty service_up) (Edit lunch)
              Hreach eq_refl) as [Hm _].
  exact Hm.
Defined.

(* ================================================================== *)
(** ** Category colours                                                *)
(* ================================================================== *)

(** C8, at a label the table does not have: [constructor] is not a key of
    [CATEGORY_COLORS], yet the lookup finds the member of that name that
    every object literal inherits, which is truthy, so the fallback is not
    taken and the colour rendered at the three places is not the default
    gray. *)
Theorem category_color_inherited_member :
  JS.own CATEGORY_COLORS "constructor" = None /\
  category_color "constructor" = JS.inherited "constructor" /\
  category_color "constructor" <> JS.str "#64748b" /\
  expense_backgroundColor odd_expense = JS.inherited "constructor" /\
  summary_backgroundColor odd_summary = JS.inherited "constructor" /\
  doughnut_backgroundColor [lunch_summary; odd_summary] =
    [JS.str "#ef4444"; JS.inherited "constructor"].
Proof.
  repeat split. discriminate.
Qed.

(* ================================================================== *)
(** ** The inputs of the form                                          *)
(* ================================================================== *)

Lemma field_eqb_eq (a b : Form.field) : field_eqb a b = true <-> a = b.
Proof.
  destruct a, b; cbn; split; congruence.
Qed.

(** X1. After [handleInputChange name value] the input [name] holds
    [value] and the other three inputs hold what they held; no other
    slot changes and nothing is sent. *)
Theorem handleInputChange_field (name : Form.field) (value : string) (w : World) :
  let w' := snd (handleInputChange name value w) in
  (forall other,
      field_of (formData (app w')) other =
      if field_eqb other name then value
      else field_of (formData (app w)) other) /\
  showForm (app w') = showForm (app w) /\
  editingExpense (app w') = editingExpense (app w) /\
  error (app w') = error (app w) /\
  requests w' = requests w.
Proof.
  cbn. split; [|auto].
  intros other. destruct other, name; reflexivity.
Qed.

(** X2. Changes compose as writes to a record: a second change of the
    same input overrides the first, and changes of different inputs
    commute. *)
Theorem handleInputChange_compose (n1 n2 : Form.field) (v1 v2 : string) (w : World) :
  let change n v w := snd (handleInputChange n v w) in
  change n2 v2 (change n1 v1 w) =
  if field_eqb n1 n2 then change n2 v2 w
  else change n1 v1 (change n2 v2 w).
Proof.
  destruct n1, n2; reflexivity.
Qed.

(* ================================================================== *)
(** ** What an event sends and what it loads                           *)
(* ================================================================== *)

Section Events.

Variable env : Env.


(** The world in which the [loadAllData] of a reloading event starts. *)
Lemma dispatch_reload (ev : Event) (w : World) :
  reloads env ev w = true ->
  exists before,
    dispatch env ev w = snd (loadAllData env before) /\
    tick before = 2 + tick w /\
    expenses (app before) = expenses (app w) /\
    categories (app before) = categories (app w) /\
    dashboardStats (app before) = dashboardStats (app w) /\
    categorySummaries (app before) = categorySummaries (app w) /\
    (error (app before) = error (app w) \/ error (app before) = "").
Proof.
  unfold dispatch, reloads, submit_succeeds.
  destruct ev as [|expense|expense|name value| |]; cbn [handler];
    try discriminate; intros H; apply andb_prop in H as [H1 H2].
  - rewrite handleDelete_run. cbn zeta. rewrite H1, H2.
    eexists. split; [reflexivity|]. cbn. auto 10.
  - rewrite (handleSubmit_accepted env w H1 H2).
    eexists. split; [reflexivity|]. cbn. auto 10.
Qed.

(** An event that does not reload leaves the four data slots alone. *)
Lemma dispatch_no_reload (ev : Event) (w : World) :
  reloads env ev w = false ->
  let w' := dispatch env ev w in
  expenses (app w') = expenses (app w) /\
  categories (app w') = categories (app w) /\
  dashboardStats (app w') = dashboardStats (app w) /\
  categorySummaries (app w') = categorySummaries (app w) /\
  loading (app w') = loading (app w).
Proof.
  cbn zeta. unfold dispatch, reloads, submit_succeeds.
  destruct ev as [|expense|expense|name value| |]; cbn [handler]; intros H.
  - cbn. auto.
  - rewrite handleEdit_run. cbn. auto.
  - rewrite handleDelete_run. cbn zeta.
    destruct (window_confirm env (tick w)); [|cbn; auto].
    destruct (reply_mutation env (1 + tick w)); [discriminate H|cbn; auto].
  - cbn. auto.
  - destruct (valid (formData (app w))) eqn:Hv.
    + destruct (reply_mutation env (tick w)) eqn:Hr; [discriminate H|].
      rewrite (handleSubmit_rejected env w Hv Hr). cbn. auto.
    + rewrite (handleSubmit_invalid env w Hv). cbn. auto.
  - rewrite cancelForm_run. cbn. auto.
Qed.

Lemma load_message_listed (i : nat) : In (load_message i) messages.
Proof.
  destruct i as [|[|[|i]]]; cbn; auto 10.
Qed.

Lemma loadAllData_error_listed (w : World) :
  error (app (snd (loadAllData env w))) = error (app w) \/
  In (error (app (snd (loadAllData env w)))) messages.
Proof.
  destruct (loadAllData_effect env w)
    as (_ & _ & _ & _ & _ & _ & _ & _ & _ & _ & _ & _ & Herr).
  rewrite Herr.
  destruct (last_rejected env (tick w) (load_order env (tick w)) None); cbn.
  - right. apply load_message_listed.
  - now left.
Qed.

(** After an event the message is the previous one, none, or a listed
    one. *)
Lemma dispatch_error_listed (ev : Event) (w : World) :
  let e' := error (app (dispatch env ev w)) in
  e' = error (app w) \/ e' = "" \/ In e' messages.
Proof.
  cbn zeta.
  destruct (reloads env ev w) eqn:Hre.
  - destruct (dispatch_reload ev w Hre) as (before & -> & _ & _ & _ & _ & _ & He).
    destruct (loadAllData_error_listed before) as [Hl | Hl]; [|auto].
    rewrite Hl. destruct He as [-> | ->]; auto.
  - revert Hre. unfold dispatch, reloads, submit_succeeds.
    destruct ev as [|expense|expense|name value| |]; cbn [handler]; intros H.
    + cbn. auto.
    + rewrite handleEdit_run. cbn. auto.
    + rewrite handleDelete_run. cbn zeta.
      destruct (window_confirm env (tick w)); [|cbn; auto].
      destruct (reply_mutation env (1 + tick w)); [discriminate H|].
      cbn. auto 12.
    + cbn. auto.
    + destruct (valid (formData (app w))) eqn:Hv.
      * destruct (reply_mutation env (tick w)) eqn:Hr; [discriminate H|].
        rewrite (handleSubmit_rejected env w Hv Hr). cbn.
        unfold submit_message. destruct (editingExpense (app w)); cbn; auto 12.
      * rewrite (handleSubmit_invalid env w Hv). cbn. auto 12.
    + rewrite cancelForm_run. cbn. auto.
Qed.




End Events.

Lemma form_empty_reachable : Reachable service_up (form_empty service_up).
Proof.
  apply (Reachable_step service_up (boot service_up) NewExpense).
  - apply Reachable_boot.
  - reflexivity.
Qed.


(** X3. The handlers without an [await] ([setShowForm(true)] of the header
    button, [handleEdit], [handleInputChange], [cancelForm]) are local:
    they send nothing, show no prompt, and leave the four loaded slots
    and [loading] as they are. *)
Theorem synchronous_events_are_local (env : Env) (ev : Event) (w : World) :
  synchronous ev = true ->
  let w' := dispatch env ev w in
  requests w' = requests w /\
  prompts w' = prompts w /\
  console w' = console w /\
  expenses (app w') = expenses (app w) /\
  categories (app w') = categories (app w) /\
  dashboardStats (app w') = dashboardStats (app w) /\
  categorySummaries (app w') = categorySummaries (app w) /\
  loading (app w') = loading (app w).
Proof.
  cbn zeta. unfold dispatch.
  destruct ev as [|expense|expense|name value| |]; cbn [handler synchronous];
    intros H; try discriminate H.
  - cbn. auto 10.
  - rewrite handleEdit_run. cbn. auto 10.
  - cbn. auto 10.
  - rewrite cancelForm_run. cbn. auto 10.
Qed.

Lemma synchronous_events_are_local_witness :
  synchronous (Edit lunch) = true /\
  requests (dispatch service_up (Edit lunch) (boot service_up)) =
  requests (boot service_up).
Proof.
  split; [reflexivity|].
  apply (synchronous_events_are_local service_up (Edit lunch) (boot service_up)).
  reflexivity.
Defined.

(** X4. [cancelForm] discards whatever was done to the form: after any
    sequence of openings, edit clicks and changes of inputs, cancelling
    leaves the world that cancelling at once would have left. *)
Theorem cancel_discards_the_form (env : Env) (evs : list Event) (w : World) :
  forallb form_only evs = true ->
  dispatch env Cancel (run env evs w) = dispatch env Cancel w.
Proof.
  revert w. induction evs as [|ev evs IH]; intros w H; [reflexivity|].
  cbn in H. apply andb_prop in H as [Hev Hevs].
  unfold run. cbn [fold_left]. fold (run env evs (dispatch env ev w)).
  rewrite (IH _ Hevs).
  unfold dispatch. cbn [handler]. rewrite !cancelForm_run.
  destruct ev as [|expense|expense|name value| |]; try discriminate Hev;
    reflexivity.
Qed.

Lemma cancel_discards_the_form_witness :
  forallb form_only
          [Edit lunch; Change Form.Amount "30"; Change Form.Description "Dinner"]
  = true /\
  dispatch service_up Cancel
    (run service_up
         [Edit lunch; Change Form.Amount "30"; Change Form.Description "Dinner"]
         (boot service_up))
  = dispatch service_up Cancel (boot service_up).
Proof.
  split; [reflexivity|].
  apply (cancel_discards_the_form service_up
           [Edit lunch; Change Form.Amount "30"; Change Form.Description "Dinner"]
           (boot service_up)).
  reflexivity.
Defined.

(** X5. Mounting sends exactly the four GET requests, in the order
    expenses, categories, statistics, summaries; when it is over the
    spinner is gone, the form is closed with no record being edited and
    holds the defaults with the date read when the state was created,
    and each slot holds the data of its reply, or its initial value
    (empty list, [null]) when its request was rejected. *)
Theorem mount_loads_once (env : Env) :
  let s := app (boot env) in
  requests (boot env) = load_requests env /\
  prompts (boot env) = [] /\
  loading s = false /\
  showForm s = false /\
  editingExpense s = None /\
  formData s = defaults (clock env 0) /\
  expenses s = match reply_expenses env 1 with Some data => data | None => [] end /\
  categories s = match reply_categories env 2 with Some data => data | None => [] end /\
  dashboardStats s = reply_stats env 3 /\
  categorySummaries s =
    match reply_summaries env 4 with Some data => data | None => [] end.
Proof.
  cbn zeta. unfold boot.
  destruct (loadAllData_effect env (mount env))
    as (_ & Hreq & Hp & _ & Hl & Hs & He & Hf & Hx & Hc & Hd & Hm & _).
  rewrite Hreq, Hp, Hl, Hs, He, Hf, Hx, Hc, Hd, Hm.
  unfold mount. cbn [app requests prompts tick expenses categories
                     dashboardStats categorySummaries showForm editingExpense
                     formData Nat.add List.app].
  rewrite split_toISOString.
  repeat split. now destruct (reply_stats env 3).
Qed.

(** X6. [loadAllData] always comes back and always ends with [loading]
    false, whatever is rejected, so the spinner does not stay: in every
    world the component reaches between two events [loading] is false. *)
Theorem spinner_never_stays (env : Env) :
  (forall w, fst (loadAllData env w) = Returned tt /\
             loading (app (snd (loadAllData env w))) = false) /\
  (forall w, Reachable env w -> loading (app w) = false).
Proof.
  split.
  - intros w.
    destruct (loadAllData_effect env w) as (Hret & _ & _ & _ & Hl & _).
    auto.
  - intros w Hw. apply (reachable_form env w Hw).
Qed.

(** X7. The loaded data changes only through replies.  An event that
    does not reach [loadAllData] leaves the four slots as they are; one
    that does (a submit that succeeds, a deletion confirmed and accepted)
    leaves in each slot the data of the reply to its GET request, or what
    the slot held when that request is rejected.  Nothing of the form or
    of the deleted row is put into the slots. *)
Theorem data_changes_only_by_replies (env : Env) (ev : Event) (w : World) :
  let w' := dispatch env ev w in
  let t := 2 + tick w in
  if reloads env ev w then
    expenses (app w') =
      match reply_expenses env t with
      | Some data => data | None => expenses (app w) end /\
    categories (app w') =
      match reply_categories env (1 + t) with
      | Some data => data | None => categories (app w) end /\
    dashboardStats (app w') =
      match reply_stats env (2 + t) with
      | Some data => Some data | None => dashboardStats (app w) end /\
    categorySummaries (app w') =
      match reply_summaries env (3 + t) with
      | Some data => data | None => categorySummaries (app w) end
  else
    expenses (app w') = expenses (app w) /\
    categories (app w') = categories (app w) /\
    dashboardStats (app w') = dashboardStats (app w) /\
    categorySummaries (app w') = categorySummaries (app w).
Proof.
  cbn zeta. destruct (reloads env ev w) eqn:Hre.
  - destruct (dispatch_reload env ev w Hre)
      as (before & -> & Ht & Hx & Hc & Hd & Hm & _).
    destruct (loadAllData_effect env before)
      as (_ & _ & _ & _ & _ & _ & _ & _ & Hx' & Hc' & Hd' & Hm' & _).
    rewrite Hx', Hc', Hd', Hm', Ht, Hx, Hc, Hd, Hm. auto.
  - destruct (dispatch_no_reload env ev w Hre) as (Hx & Hc & Hd & Hm & _).
    auto.
Qed.

(** X8. The error slot never holds anything but the empty string or one
    of the eight messages written in the component: no text of the
    service or of a thrown error reaches it. *)
Theorem error_is_a_listed_message (env : Env) (w : World) :
  Reachable env w -> error (app w) = "" \/ In (error (app w)) messages.
Proof.
  induction 1 as [|w ev Hw IH Hoff].
  - unfold boot.
    destruct (loadAllData_error_listed env (mount env)) as [-> | Hl]; auto.
  - destruct (dispatch_error_listed env ev w) as [-> | [-> | Hl]]; auto.
Qed.

Lemma error_is_a_listed_message_witness :
  Reachable service_up (form_empty service_up) /\
  (error (app (dispatch service_up Submit (form_empty service_up))) = "" \/
   In (error (app (dispatch service_up Submit (form_empty service_up)))) messages).
Proof.
  split; [exact form_empty_reachable|].
  apply (error_is_a_listed_message service_up).
  apply Reachable_step; [exact form_empty_reachable | reflexivity].
Defined.



(* ================================================================== *)
(** ** The chart                                                       *)
(* ================================================================== *)

(* ================================================================== *)
(** ** Numbers and their text                                          *)
(* ================================================================== *)

(** *** Strings *)

Lemma append_nil_r (s : string) : s ++ "" = s.
Proof.
  induction s as [|c s IH]; cbn; [reflexivity | now rewrite IH].
Qed.

Lemma append_assoc (a b c : string) : (a ++ b) ++ c = a ++ b ++ c.
Proof.
  induction a as [|x a IH]; cbn; [reflexivity | now rewrite IH].
Qed.

Lemma length_append (a b : string) :
  String.length (a ++ b) = String.length a + String.length b.
Proof.
  induction a as [|x a IH]; cbn; [reflexivity | now rewrite IH].
Qed.

Lemma rev_onto_append (s acc : string) :
  JS.rev_onto s acc = JS.rev s ++ acc.
Proof.
  unfold JS.rev. revert acc.
  induction s as [|c s IH]; intros acc; cbn; [reflexivity|].
  rewrite (IH (String c acc)), (IH (String c "")).
  now rewrite append_assoc.
Qed.

Lemma rev_cons (c : ascii) (s : string) :
  JS.rev (String c s) = JS.rev s ++ String c "".
Proof.
  unfold JS.rev at 1. cbn. apply rev_onto_append.
Qed.

Lemma rev_append (a b : string) : JS.rev (a ++ b) = JS.rev b ++ JS.rev a.
Proof.
  induction a as [|c a IH]; cbn [append].
  - now rewrite append_nil_r.
  - now rewrite !rev_cons, IH, append_assoc.
Qed.

Lemma rev_involutive (s : string) : JS.rev (JS.rev s) = s.
Proof.
  induction s as [|c s IH]; [reflexivity|].
  now rewrite rev_cons, rev_append, IH.
Qed.

Lemma length_rev (s : string) : String.length (JS.rev s) = String.length s.
Proof.
  induction s as [|c s IH]; [reflexivity|].
  rewrite rev_cons, length_append, IH. cbn. lia.
Qed.

Lemma all_digits_append (a b : string) :
  all_digits (a ++ b) = all_digits a && all_digits b.
Proof.
  induction a as [|c a IH]; cbn; [reflexivity|].
  now rewrite IH, andb_assoc.
Qed.

Lemma all_digits_rev (s : string) : all_digits (JS.rev s) = all_digits s.
Proof.
  induction s as [|c s IH]; [reflexivity|].
  rewrite rev_cons, all_digits_append, IH. cbn.
  now rewrite andb_true_r, andb_comm.
Qed.

Lemma zeros_snoc (n : nat) : JS.zeros n ++ "0" = String "0" (JS.zeros n).
Proof.
  induction n as [|n IH]; cbn; [reflexivity | now rewrite IH].
Qed.

Lemma rev_zeros (n : nat) : JS.rev (JS.zeros n) = JS.zeros n.
Proof.
  induction n as [|n IH]; [reflexivity|].
  cbn [JS.zeros]. now rewrite rev_cons, IH, zeros_snoc.
Qed.

Lemma all_digits_zeros (n : nat) : all_digits (JS.zeros n) = true.
Proof.
  induction n as [|n IH]; [reflexivity | exact IH].
Qed.

Lemma length_zeros (n : nat) : String.length (JS.zeros n) = n.
Proof.
  induction n as [|n IH]; cbn; [reflexivity | now rewrite IH].
Qed.

(** A text cut at [n] is its first [n] characters and the rest. *)
Lemma substring_cut (s : string) :
  forall n, n <= String.length s ->
  substring 0 n s ++ substring n (String.length s - n) s = s /\
  String.length (substring 0 n s) = n /\
  String.length (substring n (String.length s - n) s) = String.length s - n.
Proof.
  induction s as [|c s IH]; intros n Hn.
  - cbn in Hn. assert (n = 0) by lia. subst. now cbn.
  - destruct n as [|n].
    + cbn [substring String.length Nat.sub append].
      assert (H0 : forall t, substring 0 (String.length t) t = t).
      { induction t as [|x t IHt]; cbn; [reflexivity | now rewrite IHt]. }
      rewrite H0. cbn. auto.
    + cbn in Hn. destruct (IH n) as (H1 & H2 & H3); [lia|].
      cbn [substring String.length Nat.sub append].
      rewrite H1, H2, H3. auto.
Qed.

(** *** Digits *)

Lemma is_digit_cases (c : ascii) :
  JS.is_digit c = true ->
  c = "0"%char \/ c = "1"%char \/ c = "2"%char \/ c = "3"%char \/ c = "4"%char
  \/ c = "5"%char \/ c = "6"%char \/ c = "7"%char \/ c = "8"%char \/ c = "9"%char.
Proof.
  destruct c as [[] [] [] [] [] [] [] []]; intros H; vm_compute in H;
    try discriminate H; auto 10.
Qed.

Lemma is_digit_digit (d : N) :
  (d < 10)%N ->
  JS.is_digit (ascii_of_N (48 + d)) = true /\
  JS.digit_value (ascii_of_N (48 + d)) = d.
Proof.
  intros Hd.
  assert (H : (d = 0 \/ d = 1 \/ d = 2 \/ d = 3 \/ d = 4 \/ d = 5 \/ d = 6
               \/ d = 7 \/ d = 8 \/ d = 9)%N) by lia.
  repeat (destruct H as [-> | H]; [split; reflexivity|]). subst. now split.
Qed.

(** The value of digits read after [acc]. *)
Lemma digits_value_from_spec (s : string) :
  forall acc,
    JS.digits_value_from acc s =
    (acc * 10 ^ N.of_nat (String.length s) + JS.digits_value s)%N.
Proof.
  unfold JS.digits_value.
  induction s as [|c s IH]; intros acc.
  - cbn. lia.
  - cbn [JS.digits_value_from String.length].
    rewrite (IH (10 * acc + JS.digit_value c)%N), (IH (10 * 0 + JS.digit_value c)%N).
    rewrite Nat2N.inj_succ, N.pow_succ_r'. lia.
Qed.

Lemma digits_value_from_append (a b : string) :
  forall acc,
    JS.digits_value_from acc (a ++ b) =
    JS.digits_value_from (JS.digits_value_from acc a) b.
Proof.
  induction a as [|c a IH]; intros acc; cbn; [reflexivity | apply IH].
Qed.

Lemma digits_value_append (a b : string) :
  JS.digits_value (a ++ b) =
  (JS.digits_value a * 10 ^ N.of_nat (String.length b) + JS.digits_value b)%N.
Proof.
  unfold JS.digits_value at 1.
  rewrite digits_value_from_append, digits_value_from_spec.
  reflexivity.
Qed.

Lemma digits_value_zeros (n : nat) : JS.digits_value (JS.zeros n) = 0%N.
Proof.
  unfold JS.digits_value.
  induction n as [|n IH]; [reflexivity | exact IH].
Qed.

(** Zeros in front do not count. *)
Lemma digits_value_leading_zeros (n : nat) (s : string) :
  JS.digits_value (JS.zeros n ++ s) = JS.digits_value s.
Proof.
  rewrite digits_value_append, digits_value_zeros. lia.
Qed.

(** *** The decimal text of a natural number *)

Lemma digits_of_spec (fuel : nat) :
  forall n acc,
  exists p,
    JS.digits_of fuel n acc = p ++ acc /\
    all_digits p = true /\
    (0 < fuel -> p <> "") /\
    ((n < 10 ^ N.of_nat fuel)%N -> JS.digits_value p = n).
Proof.
  induction fuel as [|fuel IH]; intros n acc.
  - exists "". cbn. repeat split; lia.
  - cbn [JS.digits_of].
    assert (Hd : (n mod 10 < 10)%N) by (apply N.mod_lt; discriminate).
    destruct (is_digit_digit _ Hd) as [Hdig Hval].
    destruct (n / 10 =? 0)%N eqn:Hq.
    + exists (String (ascii_of_N (48 + n mod 10)) "").
      split; [reflexivity|]. split; [cbn [all_digits]; now rewrite Hdig|].
      split; [discriminate|]. intros _.
      unfold JS.digits_value. cbn [JS.digits_value_from]. rewrite Hval.
      apply N.eqb_eq in Hq.
      pose proof (N.div_mod n 10). lia.
    + destruct (IH (n / 10)%N (String (ascii_of_N (48 + n mod 10)) acc))
        as (p & Hp & Hall & _ & Hv).
      exists (p ++ String (ascii_of_N (48 + n mod 10)) "").
      split; [rewrite Hp; now rewrite append_assoc|].
      split; [rewrite all_digits_append, Hall; cbn [all_digits]; now rewrite Hdig|].
      split; [intros _; destruct p; discriminate|].
      intros Hn.
      rewrite digits_value_append, Hv.
      * unfold JS.digits_value. cbn [JS.digits_value_from String.length].
        rewrite Hval.
        pose proof (N.div_mod n 10). lia.
      * rewrite Nat2N.inj_succ, N.pow_succ_r' in Hn.
        apply N.Div0.div_lt_upper_bound. exact Hn.
Qed.

Lemma decimal_spec (n : N) :
  all_digits (JS.decimal n) = true /\
  JS.decimal n <> "" /\
  JS.digits_value (JS.decimal n) = n.
Proof.
  unfold JS.decimal.
  destruct (digits_of_spec (S (N.to_nat (N.log2 n))) n "") as (p & Hp & Hall & Hne & Hv).
  rewrite Hp, append_nil_r.
  split; [exact Hall|]. split; [apply Hne; lia|].
  apply Hv.
  rewrite Nat2N.inj_succ, N2Nat.id.
  destruct (N.eq_dec n 0) as [-> | Hn0]; [reflexivity|].
  apply N.lt_le_trans with (2 ^ N.succ (N.log2 n))%N.
  - apply N.log2_spec. lia.
  - apply N.pow_le_mono_l. lia.
Qed.

(** *** Trailing zeros *)

Lemma drop_zeros_zeros (n : nat) (t : string) :
  JS.drop_zeros (JS.zeros n ++ t) =
  (n + fst (JS.drop_zeros t), snd (JS.drop_zeros t)).
Proof.
  induction n as [|n IH]; cbn [JS.zeros append Nat.add].
  - now destruct (JS.drop_zeros t).
  - cbn [JS.drop_zeros]. change (nat_of_ascii "0" =? 48)%nat with true.
    cbn iota. now rewrite IH.
Qed.

Lemma drop_zeros_spec (s : string) :
  s = JS.zeros (fst (JS.drop_zeros s)) ++ snd (JS.drop_zeros s) /\
  (forall c r, snd (JS.drop_zeros s) = String c r -> c <> "0"%char).
Proof.
  induction s as [|c s [IH1 IH2]]; cbn [JS.drop_zeros].
  - split; [reflexivity | discriminate].
  - destruct (nat_of_ascii c =? 48)%nat eqn:Hc.
    + destruct (JS.drop_zeros s) as [k r'] eqn:Hd. cbn [fst snd] in *.
      apply Nat.eqb_eq in Hc.
      assert (c = "0"%char).
      { rewrite <- (ascii_nat_embedding c), Hc. reflexivity. }
      subst c. split; [cbn; now rewrite <- IH1 | exact IH2].
    + cbn [fst snd JS.zeros append]. split; [reflexivity|].
      intros c' r' [= <- <-] ->. discriminate Hc.
Qed.

Lemma drop_zeros_nonzero (c : ascii) (r : string) :
  c <> "0"%char -> JS.drop_zeros (String c r) = (0, String c r).
Proof.
  intros Hc. cbn [JS.drop_zeros].
  destruct (nat_of_ascii c =? 48)%nat eqn:E; [|reflexivity].
  exfalso. apply Hc. apply Nat.eqb_eq in E.
  rewrite <- (ascii_nat_embedding c), E. reflexivity.
Qed.

(** The significant digits of a number that is not zero: [decimal m] is
    digits that do not end in [0], followed by zeros. *)
Lemma significand (m : N) :
  m <> 0%N ->
  exists z c r,
    JS.drop_zeros (JS.rev (JS.decimal m)) = (z, String c r) /\
    c <> "0"%char /\
    all_digits (String c r) = true /\
    JS.decimal m = JS.rev (String c r) ++ JS.zeros z /\
    (JS.digits_value (JS.rev (String c r)) * 10 ^ N.of_nat z = m)%N /\
    JS.digits_value (JS.rev (String c r)) <> 0%N.
Proof.
  intros Hm.
  destruct (decimal_spec m) as (Hall & Hne & Hval).
  destruct (drop_zeros_spec (JS.rev (JS.decimal m))) as [Hs Hc].
  destruct (JS.drop_zeros (JS.rev (JS.decimal m))) as [z r] eqn:Hd.
  cbn [fst snd] in *.
  assert (Hdec : JS.decimal m = JS.rev r ++ JS.zeros z).
  { rewrite <- (rev_involutive (JS.decimal m)), Hs, rev_append, rev_zeros.
    reflexivity. }
  assert (Hv : (JS.digits_value (JS.rev r) * 10 ^ N.of_nat z = m)%N).
  { transitivity (JS.digits_value (JS.decimal m)); [|exact Hval].
    rewrite Hdec, digits_value_append, digits_value_zeros, length_zeros. lia. }
  destruct r as [|c r].
  - exfalso. apply Hm. rewrite <- Hv. reflexivity.
  - exists z, c, r. split; [reflexivity|].
    split; [now apply (Hc c r)|].
    split.
    { rewrite <- all_digits_rev, Hs, all_digits_append, all_digits_zeros in Hall.
      exact Hall. }
    split; [exact Hdec|]. split; [exact Hv|].
    intros H0. apply Hm. rewrite <- Hv, H0. reflexivity.
Qed.

(** *** Reading digits *)

Lemma span_digits_append (ds rest : string) :
  all_digits ds = true -> stops rest ->
  JS.span_digits (ds ++ rest) = (ds, rest).
Proof.
  intros Hds Hrest.
  induction ds as [|c ds IH]; cbn [append].
  - destruct rest as [|c r]; [reflexivity|].
    cbn in *. now rewrite Hrest.
  - cbn in Hds. apply andb_prop in Hds as [Hc Hds].
    cbn [JS.span_digits]. now rewrite Hc, (IH Hds).
Qed.

Lemma span_digits_all (ds : string) :
  all_digits ds = true -> JS.span_digits ds = (ds, "").
Proof.
  intros H. rewrite <- (append_nil_r ds) at 1.
  now apply span_digits_append.
Qed.

(** A text that begins with a digit or a minus sign has no white space
    to trim. *)
Lemma trimStart_ascii (c : ascii) (r : string) :
  JS.white1 c = false -> nat_of_ascii c < 128 ->
  JS.trimStart (String c r) = String c r.
Proof.
  intros Hw Hc.
  assert (H2 : forall b, JS.white2 c b = false).
  { intros b. unfold JS.white2.
    replace (nat_of_ascii c =? 194)%nat with false
      by (symmetry; apply Nat.eqb_neq; lia).
    reflexivity. }
  assert (H3 : forall b d, JS.white3 c b d = false).
  { intros b d. unfold JS.white3. cbn zeta.
    replace (nat_of_ascii c =? 225)%nat with false
      by (symmetry; apply Nat.eqb_neq; lia).
    replace (nat_of_ascii c =? 226)%nat with false
      by (symmetry; apply Nat.eqb_neq; lia).
    replace (nat_of_ascii c =? 227)%nat with false
      by (symmetry; apply Nat.eqb_neq; lia).
    replace (nat_of_ascii c =? 239)%nat with false
      by (symmetry; apply Nat.eqb_neq; lia).
    reflexivity. }
  cbn [JS.trimStart]. rewrite Hw.
  destruct r as [|b [|d r]]; [reflexivity | now rewrite H2 |].
  now rewrite H2, H3.
Qed.

Lemma digit_facts (c : ascii) :
  JS.is_digit c = true ->
  JS.white1 c = false /\ nat_of_ascii c < 128 /\
  (nat_of_ascii c =? 45)%nat = false /\ (nat_of_ascii c =? 43)%nat = false /\
  (nat_of_ascii c =? 46)%nat = false /\
  (forall r, prefix "Infinity" (String c r) = false).
Proof.
  intros H.
  destruct (is_digit_cases c H) as [-> | [-> | [-> | [-> | [-> | [-> | [-> | [-> | [-> | ->]]]]]]]]];
    repeat split; try (cbn; lia); reflexivity.
Qed.

(** The exponent part that [Number.prototype.toString] writes. *)
Lemma exponent_part_written (x : N) (negative : bool) :
  JS.exponent_part ("e" ++ (if negative then "-" else "+") ++ JS.decimal x) =
  (if negative then (- Z.of_N x)%Z else Z.of_N x).
Proof.
  destruct (decimal_spec x) as (Hall & Hne & Hval).
  destruct negative; cbn [append JS.exponent_part];
    change (nat_of_ascii "e" =? 101)%nat with true; cbn [orb];
    [ change (nat_of_ascii "-" =? 45)%nat with true
    | change (nat_of_ascii "+" =? 45)%nat with false;
      change (nat_of_ascii "+" =? 43)%nat with true ];
    cbn iota; rewrite (span_digits_all _ Hall), Hval;
    destruct (JS.decimal x); [contradiction | reflexivity
                             | contradiction | reflexivity].
Qed.

Lemma tail_ok_stops (tail : string) : tail_ok tail -> stops tail.
Proof.
  intros [-> | [t ->]]; [exact I | reflexivity].
Qed.

Lemma unsigned_literal_plain (negative : bool) (int tail : string) :
  all_digits int = true -> int <> "" -> tail_ok tail ->
  JS.unsigned_literal negative (int ++ tail) =
  literal_value negative int "" (JS.exponent_part tail).
Proof.
  intros Hint Hne Htail.
  unfold JS.unsigned_literal, literal_value.
  destruct int as [|c int']; [contradiction|].
  cbn in Hint. apply andb_prop in Hint as [Hc Hint'].
  destruct (digit_facts c Hc) as (_ & _ & _ & _ & _ & Hinf).
  cbn [append]. rewrite Hinf.
  change (String c (int' ++ tail)) with (String c int' ++ tail).
  rewrite span_digits_append;
    [| cbn; now rewrite Hc, Hint' | now apply tail_ok_stops].
  destruct Htail as [-> | [t ->]]; reflexivity.
Qed.

Lemma unsigned_literal_point (negative : bool) (int frac tail : string) :
  all_digits int = true -> int <> "" -> all_digits frac = true -> tail_ok tail ->
  JS.unsigned_literal negative (int ++ "." ++ frac ++ tail) =
  literal_value negative int frac (JS.exponent_part tail).
Proof.
  intros Hint Hne Hfrac Htail.
  unfold JS.unsigned_literal, literal_value.
  destruct int as [|c int']; [contradiction|].
  cbn in Hint. apply andb_prop in Hint as [Hc Hint'].
  destruct (digit_facts c Hc) as (_ & _ & _ & _ & _ & Hinf).
  cbn [append]. rewrite Hinf.
  change (String c (int' ++ String "." (frac ++ tail)))
    with (String c int' ++ String "." (frac ++ tail)).
  rewrite span_digits_append; [| cbn; now rewrite Hc, Hint' | reflexivity].
  change (nat_of_ascii "." =? 46)%nat with true. cbn iota.
  rewrite span_digits_append; [| exact Hfrac | now apply tail_ok_stops].
  reflexivity.
Qed.

(** The value of digits that are the significant ones between zeros. *)
Lemma literal_value_digits (negative : bool) (int frac : string) (expo : Z)
      (a b : nat) (c : ascii) (r : string) :
  int ++ frac = JS.zeros a ++ JS.rev (String c r) ++ JS.zeros b ->
  c <> "0"%char ->
  JS.digits_value (JS.rev (String c r)) <> 0%N ->
  literal_value negative int frac expo =
  JS.Finite negative (JS.digits_value (JS.rev (String c r)))
            (expo - Z.of_nat (String.length frac) + Z.of_nat b).
Proof.
  intros Hdigits Hc Hm. unfold literal_value.
  rewrite Hdigits, !rev_append, !rev_zeros, rev_involutive.
  rewrite append_assoc, drop_zeros_zeros.
  change (String c r ++ JS.zeros a) with (String c (r ++ JS.zeros a)).
  rewrite (drop_zeros_nonzero c _ Hc). cbn [fst snd].
  change (String c (r ++ JS.zeros a)) with (String c r ++ JS.zeros a).
  rewrite rev_append, rev_zeros, digits_value_leading_zeros.
  apply N.eqb_neq in Hm. rewrite Hm, Nat.add_0_r. reflexivity.
Qed.

(** The sign, then the digits. *)
Lemma parseFloat_signed (negative : bool) (c : ascii) (body : string) :
  JS.is_digit c = true ->
  JS.parseFloat (if negative then "-" ++ String c body else String c body) =
  JS.unsigned_literal negative (String c body).
Proof.
  intros Hc.
  destruct (digit_facts c Hc) as (Hw & Hlt & H45 & H43 & _).
  unfold JS.parseFloat. destruct negative; cbn [append].
  - rewrite trimStart_ascii; [reflexivity | reflexivity | cbn; lia].
  - rewrite (trimStart_ascii c body Hw Hlt). now rewrite H45, H43.
Qed.

(** [parseFloat] reads back what [Number.prototype.toString] writes. *)
Lemma parseFloat_toString (x : JS.number) :
  JS.parseFloat (JS.Number_toString x) = normal x.
Proof.
  destruct x as [|negative|negative m e]; [reflexivity | now destruct negative |].
  unfold JS.Number_toString, normal.
  destruct (m =? 0)%N eqn:Hm0; [reflexivity|].
  apply N.eqb_neq in Hm0.
  destruct (significand m Hm0) as (z & c & r & Hd & Hc & Hall & _ & _ & HM).
  rewrite Hd.
  set (s := JS.rev (String c r)) in *.
  assert (Hs : all_digits s = true) by (unfold s; now rewrite all_digits_rev).
  assert (Hk : 0 < String.length s) by (unfold s; rewrite length_rev; cbn; lia).
  set (k := String.length s) in *.
  set (n := (e + Z.of_nat z + Z.of_nat k)%Z).
  assert (Hhead : exists c0 s0, s = String c0 s0 /\ JS.is_digit c0 = true).
  { destruct s as [|c0 s0]; [cbn in Hk; lia|].
    exists c0, s0. split; [reflexivity|].
    cbn in Hs. now apply andb_prop in Hs as [H _]. }
  destruct ((-5 <=? n)%Z && (n <=? 21)%Z) eqn:Hrange.
  - apply andb_prop in Hrange as [Hlo Hhi].
    apply Z.leb_le in Hlo, Hhi.
    destruct (Z.of_nat k <=? n)%Z eqn:Hkn.
    + (* digits, then zeros *)
      apply Z.leb_le in Hkn.
      destruct Hhead as (c0 & s0 & Hs0 & Hc0).
      assert (Hbody : s ++ JS.zeros (Z.to_nat n - k)
                      = String c0 (s0 ++ JS.zeros (Z.to_nat n - k)))
        by (now rewrite Hs0).
      rewrite Hbody, (parseFloat_signed negative c0 _ Hc0), <- Hbody.
      rewrite <- (append_nil_r (s ++ JS.zeros (Z.to_nat n - k))).
      rewrite unsigned_literal_plain;
        [| now rewrite all_digits_append, Hs, all_digits_zeros
         | rewrite Hs0; discriminate | now left].
      rewrite (literal_value_digits negative _ _ _ 0 (Z.to_nat n - k) c r);
        [| now rewrite append_nil_r | exact Hc | exact HM].
      f_equal. cbn [JS.exponent_part String.length]. unfold n in *. lia.
    + apply Z.leb_gt in Hkn.
      destruct (0 <? n)%Z eqn:Hpos.
      * (* digits, the point, digits *)
        apply Z.ltb_lt in Hpos.
        destruct (substring_cut s (Z.to_nat n)) as (Hcut & Hla & Hlb);
          [unfold k in *; lia|].
        fold k in Hcut, Hlb.
        set (a := substring 0 (Z.to_nat n) s) in *.
        set (b := substring (Z.to_nat n) (k - Z.to_nat n) s) in *.
        assert (Hab : all_digits a = true /\ all_digits b = true).
        { rewrite <- Hcut, all_digits_append in Hs.
          now apply andb_prop in Hs. }
        destruct Hab as [Ha Hb].
        assert (Hane : exists c0 a0, a = String c0 a0 /\ JS.is_digit c0 = true).
        { destruct a as [|c0 a0]; [cbn in Hla; lia|].
          exists c0, a0. split; [reflexivity|].
          cbn in Ha. now apply andb_prop in Ha as [H _]. }
        destruct Hane as (c0 & a0 & Ha0 & Hc0).
        assert (Hbody : a ++ "." ++ b = String c0 (a0 ++ "." ++ b))
          by (now rewrite Ha0).
        rewrite Hbody, (parseFloat_signed negative c0 _ Hc0), <- Hbody.
        rewrite <- (append_nil_r b) at 1.
        rewrite unsigned_literal_point;
          [| exact Ha | rewrite Ha0; discriminate | exact Hb | now left].
        rewrite (literal_value_digits negative _ _ _ 0 0 c r);
          [| rewrite Hcut; cbn [JS.zeros append]; now rewrite append_nil_r
           | exact Hc | exact HM].
        f_equal. cbn [JS.exponent_part]. rewrite Hlb. unfold n in *. lia.
      * (* zero, the point, zeros, digits *)
        apply Z.ltb_ge in Hpos.
        change ("0." ++ JS.zeros (Z.to_nat (- n)) ++ s)
          with (String "0" ("" ++ "." ++ (JS.zeros (Z.to_nat (- n)) ++ s))).
        rewrite (parseFloat_signed negative "0" _ eq_refl).
        change (String "0" ("" ++ "." ++ (JS.zeros (Z.to_nat (- n)) ++ s)))
          with ("0" ++ "." ++ (JS.zeros (Z.to_nat (- n)) ++ s)).
        rewrite <- (append_nil_r (JS.zeros (Z.to_nat (- n)) ++ s)) at 1.
        rewrite unsigned_literal_point;
          [| reflexivity | discriminate
           | now rewrite all_digits_append, all_digits_zeros, Hs | now left].
        rewrite (literal_value_digits negative _ _ _ (S (Z.to_nat (- n))) 0 c r);
          [| cbn [JS.zeros append]; now rewrite append_nil_r
           | exact Hc | exact HM].
        f_equal. cbn [JS.exponent_part].
        rewrite length_append, length_zeros. fold k. unfold n in *. lia.
  - (* scientific notation *)
    assert (Hout : (n < -5 \/ 21 < n)%Z).
    { destruct (-5 <=? n)%Z eqn:Hlo; [right | left].
      - cbn in Hrange. apply Z.leb_gt in Hrange. exact Hrange.
      - apply Z.leb_gt in Hlo. exact Hlo. }
    set (tail := "e" ++ (if (n <? 0)%Z then "-" else "+")
                     ++ JS.decimal (Z.to_N (Z.abs (n - 1)))).
    assert (Htail : tail_ok tail) by (right; eexists; reflexivity).
    assert (Hexp : JS.exponent_part tail = (n - 1)%Z).
    { unfold tail. rewrite exponent_part_written.
      destruct (n <? 0)%Z eqn:Hneg.
      - apply Z.ltb_lt in Hneg. lia.
      - apply Z.ltb_ge in Hneg. lia. }
    destruct (k =? 1)%nat eqn:Hk1.
    + (* one digit *)
      apply Nat.eqb_eq in Hk1.
      destruct Hhead as (c0 & s0 & Hs0 & Hc0).
      change (s ++ "e" ++ (if (n <? 0)%Z then "-" else "+")
                ++ JS.decimal (Z.to_N (Z.abs (n - 1))))
        with (s ++ tail).
      assert (Hbody : s ++ tail = String c0 (s0 ++ tail)) by (now rewrite Hs0).
      rewrite Hbody, (parseFloat_signed negative c0 _ Hc0), <- Hbody.
      rewrite unsigned_literal_plain;
        [| exact Hs | rewrite Hs0; discriminate | exact Htail].
      rewrite (literal_value_digits negative _ _ _ 0 0 c r);
        [| cbn [JS.zeros append]; now rewrite !append_nil_r
         | exact Hc | exact HM].
      f_equal. rewrite Hexp. cbn [String.length]. unfold n in *. lia.
    + (* a digit, the point, digits *)
      apply Nat.eqb_neq in Hk1.
      destruct (substring_cut s 1) as (Hcut & Hla & Hlb); [unfold k in *; lia|].
      fold k in Hcut, Hlb.
      set (a := substring 0 1 s) in *.
      set (b := substring 1 (k - 1) s) in *.
      assert (Hab : all_digits a = true /\ all_digits b = true).
      { rewrite <- Hcut, all_digits_append in Hs.
        now apply andb_prop in Hs. }
      destruct Hab as [Ha Hb].
      assert (Hane : exists c0 a0, a = String c0 a0 /\ JS.is_digit c0 = true).
      { destruct a as [|c0 a0]; [cbn in Hla; lia|].
        exists c0, a0. split; [reflexivity|].
        cbn in Ha. now apply andb_prop in Ha as [H _]. }
      destruct Hane as (c0 & a0 & Ha0 & Hc0).
      change (a ++ "." ++ b ++ "e" ++ (if (n <? 0)%Z then "-" else "+")
                ++ JS.decimal (Z.to_N (Z.abs (n - 1))))
        with (a ++ "." ++ b ++ tail).
      assert (Hbody : a ++ "." ++ b ++ tail = String c0 (a0 ++ "." ++ b ++ tail))
        by (now rewrite Ha0).
      rewrite Hbody, (parseFloat_signed negative c0 _ Hc0), <- Hbody.
      rewrite unsigned_literal_point;
        [| exact Ha | rewrite Ha0; discriminate | exact Hb | exact Htail].
      rewrite (literal_value_digits negative _ _ _ 0 0 c r);
        [| rewrite Hcut; cbn [JS.zeros append]; now rewrite append_nil_r
         | exact Hc | exact HM].
      f_equal. rewrite Hexp, Hlb. unfold n in *. lia.
Qed.


(** A number whose digits do not end in [0] is in normal form. *)
Lemma normal_fixed (negative : bool) (m : N) (e : Z) :
  (m mod 10 <> 0)%N -> normal (JS.Finite negative m e) = JS.Finite negative m e.
Proof.
  intros Hmod. unfold normal.
  assert (Hm0 : m <> 0%N) by (intros ->; now apply Hmod).
  destruct (m =? 0)%N eqn:E; [apply N.eqb_eq in E; contradiction|].
  destruct (significand m Hm0) as (z & c & r & Hd & _ & _ & _ & Hv & _).
  rewrite Hd.
  destruct z as [|z].
  - change (N.of_nat 0) with 0%N in Hv.
    rewrite N.pow_0_r, N.mul_1_r in Hv.
    rewrite Hv. f_equal. cbn. lia.
  - exfalso. apply Hmod. rewrite <- Hv.
    rewrite Nat2N.inj_succ, N.pow_succ_r'.
    rewrite N.mul_assoc, (N.mul_comm _ 10), <- N.mul_assoc, N.mul_comm.
    apply N.Div0.mod_mul.
Qed.

(** The text of a number is never empty. *)
Lemma Number_toString_nonempty (x : JS.number) : JS.Number_toString x <> "".
Proof.
  intros H. pose proof (parseFloat_toString x) as Hround.
  rewrite H in Hround. cbn in Hround.
  destruct x as [|negative|negative m e]; [discriminate H | discriminate Hround |].
  unfold normal in Hround.
  destruct (m =? 0)%N; [discriminate Hround|].
  destruct (JS.drop_zeros (JS.rev (JS.decimal m))). discriminate Hround.
Qed.

Lemma valid_prefilled (expense : Expense.t) :
  valid (prefilled expense) = true <->
  Expense.description expense <> "" /\ Expense.category expense <> "".
Proof.
  rewrite valid_true_iff. unfold prefilled. cbn.
  pose proof (Number_toString_nonempty (Expense.amount expense)).
  tauto.
Qed.

(* ================================================================== *)
(** ** Editing a record                                                *)
(* ================================================================== *)

(** X11. A record opened for editing passes the validation of
    [handleSubmit] exactly when its description and its category are not
    empty: the text of its amount never is. *)
Theorem edited_record_is_valid (expense : Expense.t) (w : World) :
  valid (formData (app (snd (handleEdit expense w)))) = true <->
  Expense.description expense <> "" /\ Expense.category expense <> "".
Proof.
  rewrite handleEdit_run. cbn [snd app formData setShowForm setFormData].
  apply valid_prefilled.
Qed.



(* ================================================================== *)
(** ** The date of the form                                            *)
(* ================================================================== *)

Lemma length_digits_of (fuel : nat) :
  forall n acc w,
    0 < w -> (n < 10 ^ N.of_nat w)%N ->
    String.length (JS.digits_of fuel n acc) <= w + String.length acc.
Proof.
  induction fuel as [|fuel IH]; intros n acc w Hw Hn; cbn [JS.digits_of].
  - lia.
  - destruct (n / 10 =? 0)%N eqn:Hq.
    + cbn. lia.
    + apply N.eqb_neq in Hq.
      destruct w as [|[|w]]; [lia | |].
      * exfalso. apply Hq. apply N.div_small. exact Hn.
      * specialize (IH (n / 10)%N (String (ascii_of_N (48 + n mod 10)) acc) (S w)).
        cbn [String.length] in IH.
        assert (Hdiv : (n / 10 < 10 ^ N.of_nat (S w))%N).
        { rewrite (Nat2N.inj_succ (S w)), N.pow_succ_r' in Hn.
          apply N.Div0.div_lt_upper_bound. exact Hn. }
        specialize (IH ltac:(lia) Hdiv). lia.
Qed.

(** A number of at most [width] digits, padded, has [width] digits. *)
Lemma pad_spec (width : nat) (n : Z) :
  0 < width -> (0 <= n < 10 ^ Z.of_nat width)%Z ->
  all_digits (JS.pad width n) = true /\
  String.length (JS.pad width n) = width /\
  JS.digits_value (JS.pad width n) = Z.to_N n.
Proof.
  intros Hw Hn. unfold JS.pad.
  destruct (decimal_spec (Z.to_N n)) as (Hall & _ & Hval).
  assert (Hlen : String.length (JS.decimal (Z.to_N n)) <= width).
  { unfold JS.decimal.
    pose proof (length_digits_of (S (N.to_nat (N.log2 (Z.to_N n))))
                  (Z.to_N n) "" width Hw) as H.
    cbn [String.length] in H. rewrite Nat.add_0_r in H. apply H.
    apply N2Z.inj_lt. rewrite Z2N.id by lia.
    rewrite N2Z.inj_pow, nat_N_Z. cbn. lia. }
  split; [now rewrite all_digits_append, all_digits_zeros|].
  split; [rewrite length_append, length_zeros; lia|].
  now rewrite digits_value_leading_zeros.
Qed.

(** The month and the day of any day number. *)
Lemma civil_month_day (days : Z) :
  let r := JS.civil_from_days days in
  (1 <= snd (fst r) <= 12)%Z /\ (1 <= snd r <= 31)%Z.
Proof.
  unfold JS.civil_from_days. cbn zeta. cbn [fst snd].
  set (z := (days + 719468)%Z).
  set (era := (z / 146097)%Z).
  set (doe := (z - era * 146097)%Z).
  assert (Hdoe : (0 <= doe < 146097)%Z)
    by (unfold doe, era; Z.to_euclidean_division_equations; lia).
  clearbody doe. clear era z.
  set (yoe := ((doe - doe / 1460 + doe / 36524 - doe / 146096) / 365)%Z).
  set (doy := (doe - (365 * yoe + yoe / 4 - yoe / 100))%Z).
  assert (Hdoy : (0 <= doy <= 365)%Z)
    by (unfold doy, yoe; Z.to_euclidean_division_equations; lia).
  clearbody doy.
  set (mp := ((5 * doy + 2) / 153)%Z).
  assert (Hmp : (0 <= mp <= 11)%Z)
    by (unfold mp; Z.to_euclidean_division_equations; lia).
  destruct (mp <? 10)%Z eqn:E;
    [apply Z.ltb_lt in E | apply Z.ltb_ge in E];
    (split; [lia|]); unfold mp in *; Z.to_euclidean_division_equations; lia.
Qed.

(** The year of a clock reading between the first instant of year 0 and
    the last of year 9999. *)
Lemma civil_year (t : JS.Date) :
  four_digit_year t ->
  (0 <= fst (fst (JS.civil_from_days (t / JS.msPerDay))) <= 9999)%Z.
Proof.
  unfold four_digit_year, JS.civil_from_days, JS.msPerDay. intros Ht.
  cbn zeta. cbn [fst snd].
  assert (Hdays : (-719528 <= t / 86400000 < 2932897)%Z)
    by (Z.to_euclidean_division_equations; lia).
  set (days := (t / 86400000)%Z) in *. clearbody days. clear Ht t.
  set (z := (days + 719468)%Z).
  set (era := (z / 146097)%Z).
  set (doe := (z - era * 146097)%Z).
  assert (Hera : (-1 <= era <= 24 /\ 0 <= doe < 146097
                  /\ (era = -1 -> 146037 <= doe)
                  /\ (era = 24 -> doe <= 146036))%Z)
    by (unfold doe, era, z; Z.to_euclidean_division_equations; lia).
  clearbody doe era. clear z.
  set (yoe := ((doe - doe / 1460 + doe / 36524 - doe / 146096) / 365)%Z).
  set (doy := (doe - (365 * yoe + yoe / 4 - yoe / 100))%Z).
  set (mp := ((5 * doy + 2) / 153)%Z).
  destruct (mp <? 10)%Z eqn:E;
    [apply Z.ltb_lt in E | apply Z.ltb_ge in E].
  - destruct (mp + 3 <=? 2)%Z eqn:E2;
      [apply Z.leb_le in E2 | apply Z.leb_gt in E2];
      unfold mp, doy, yoe in *; Z.to_euclidean_division_equations; lia.
  - destruct (mp - 9 <=? 2)%Z eqn:E2;
      [apply Z.leb_le in E2 | apply Z.leb_gt in E2];
      unfold mp, doy, yoe in *; Z.to_euclidean_division_equations; lia.
Qed.

Lemma iso_date_shape (t : JS.Date) : four_digit_year t -> iso_day (JS.iso_date t).
Proof.
  intros Ht. unfold JS.iso_date.
  pose proof (civil_year t Ht) as Hy.
  pose proof (civil_month_day (t / JS.msPerDay)) as [Hm Hd]. cbn zeta in Hm, Hd.
  destruct (JS.civil_from_days (t / JS.msPerDay)) as [[y m] d].
  cbn [fst snd] in Hy, Hm, Hd.
  replace ((0 <=? y)%Z && (y <=? 9999)%Z) with true
    by (symmetry; apply andb_true_intro; split; apply Z.leb_le; lia).
  destruct (pad_spec 4 y) as (Hy1 & Hy2 & _); [lia | cbn; lia|].
  destruct (pad_spec 2 m) as (Hm1 & Hm2 & Hm3); [lia | cbn; lia|].
  destruct (pad_spec 2 d) as (Hd1 & Hd2 & Hd3); [lia | cbn; lia|].
  exists (JS.pad 4 y), (JS.pad 2 m), (JS.pad 2 d).
  repeat split; try assumption; rewrite ?Hm3, ?Hd3; lia.
Qed.

(** X13. The date [new Date().toISOString().split('T')[0]] that the form
    is given when it is reset is a text of the form YYYY-MM-DD with a
    month from 01 to 12 and a day from 01 to 31, whenever the clock
    reads a year from 0 to 9999; so is the date of the form after
    [cancelForm]. *)
Theorem form_date_is_iso_day (env : Env) (w : World) :
  four_digit_year (clock env (tick w)) ->
  (exists date, fst (today env w) = Returned date /\ iso_day date) /\
  iso_day (Form.date (formData (app (dispatch env Cancel w)))).
Proof.
  intros Ht.
  pose proof (iso_date_shape _ Ht) as Hshape.
  split.
  - rewrite today_run. eexists. split; [reflexivity | exact Hshape].
  - unfold dispatch. cbn [handler]. rewrite cancelForm_run. exact Hshape.
Qed.

Lemma form_date_is_iso_day_witness :
  four_digit_year (clock service_up (tick (form_filled service_up))) /\
  iso_day (Form.date (formData (app (dispatch service_up Cancel
                                      (form_filled service_up))))).
Proof.
  assert (H : four_digit_year (clock service_up (tick (form_filled service_up))))
    by (unfold four_digit_year; split;
        [apply Z.leb_le | apply Z.ltb_lt]; vm_compute; reflexivity).
  split; [exact H|].
  apply (form_date_is_iso_day service_up (form_filled service_up) H).
Defined.
